(** * VHS-case mockup scripts: layer lookup, rasterising and compositing

    A shallow embedding of the three scripts under [scripts/vhs]:
    - [build_black_case_front_template.py]  (module [Build]),
    - [inspect_black_case_psb.py]           (module [Inspect]),
    - [prototype_black_case_front.py]       (module [Prototype]).

    The layered document ([psd_tools]) and the raster operations ([PIL])
    are libraries the scripts call; module [Psd] gives the part of the
    document interface the scripts read, module [Pil] the integer pixel
    arithmetic of the raster calls they make. *)

From Stdlib Require Import ZArith QArith String Ascii List Lia.
From stdpp Require Import gmap strings list fin_maps.

Local Open Scope string_scope.
Local Open Scope list_scope.
Local Open Scope Z_scope.

(** ** Exceptions and results *)

Inductive exception :=
  | SystemExit (msg : string)
  | RuntimeError (msg : string)
  | ValueError (msg : string)
  | KeyError (key : string).

Inductive result (A : Type) :=
  | Ok (a : A)
  | Raise (e : exception).
Arguments Ok {A} a.
Arguments Raise {A} e.

Definition rbind {A B} (r : result A) (k : A → result B) : result B :=
  match r with
  | Ok a => k a
  | Raise e => Raise e
  end.

Declare Scope result_scope.
Delimit Scope result_scope with result.
Notation "'do' x <- r ; k" := (rbind r (λ x, k))
  (at level 10, x name, r at level 100, k at level 200) : result_scope.

(** ** Strings: the two Python string operations the scripts use *)

Module Str.

(** [s.startswith(t)] *)
Fixpoint starts_with (s t : string) : bool :=
  match t, s with
  | EmptyString, _ => true
  | String b t', String a s' => bool_decide (a = b) && starts_with s' t'
  | String _ _, EmptyString => false
  end.

(** [t in s] *)
Fixpoint contains (s t : string) : bool :=
  starts_with s t ||
  match s with
  | EmptyString => false
  | String _ s' => contains s' t
  end.

(** Lowering of one byte: [A-Z] to [a-z], every other byte kept.  On a
    string of ASCII characters this is [s.lower()]. *)
Definition ascii_lower (c : ascii) : ascii :=
  let n := nat_of_ascii c in
  if (65 <=? n)%nat && (n <=? 90)%nat then ascii_of_nat (n + 32) else c.

(** [s.lower()] for a string of ASCII characters. *)
Fixpoint lower (s : string) : string :=
  match s with
  | EmptyString => EmptyString
  | String c s' => String (ascii_lower c) (lower s')
  end.

(** Every byte is below 128. *)
Fixpoint is_ascii (s : string) : bool :=
  match s with
  | EmptyString => true
  | String c s' => (nat_of_ascii c <? 128)%nat && is_ascii s'
  end.

(** [sep.join(parts)] *)
Fixpoint join (sep : string) (parts : list string) : string :=
  match parts with
  | [] => ""
  | [p] => p
  | p :: ps => p +:+ sep +:+ join sep ps
  end.

End Str.

(** ** The layered document, as the scripts see it *)

Module Psd.

(** Bounding box [(x1, y1, x2, y2)] in document pixels. *)
Definition BBox : Type := Z * Z * Z * Z.

Record Attrs := mkAttrs {
  name : string;
  kind : option string;
  bbox : BBox;
  visible : bool
}.

(** A layer is a leaf or a group ([is_group()]) with ordered children. *)
#[warnings="-register-all"] Inductive Layer :=
  | Leaf (a : Attrs)
  | Group (a : Attrs) (children : list Layer).

Definition attrs (l : Layer) : Attrs :=
  match l with Leaf a => a | Group a _ => a end.

Definition is_group (l : Layer) : bool :=
  match l with Leaf _ => false | Group _ _ => true end.

Definition layer_name (l : Layer) : string := name (attrs l).
Definition layer_kind (l : Layer) : option string := kind (attrs l).
Definition layer_visible (l : Layer) : bool := visible (attrs l).
Definition layer_bbox (l : Layer) : BBox := bbox (attrs l).

(** The box the document library reports for a group
    ([Group.extract_bbox]): the hull of the boxes of those children that
    are visible, boxes equal to [(0, 0, 0, 0)] left out, and
    [(0, 0, 0, 0)] when none is left.  [shown] says whether the group and
    every group above it are visible, which a child's [is_visible()]
    requires besides the child's own flag. *)
Definition hull (b1 b2 : BBox) : BBox :=
  let '(l1, t1, r1, m1) := b1 in
  let '(l2, t2, r2, m2) := b2 in
  (Z.min l1 l2, Z.min t1 t2, Z.max r1 r2, Z.max m1 m2).

Definition extract_bbox (shown : bool) (children : list Layer) : BBox :=
  let bboxes :=
    layer_bbox <$> List.filter (λ c, layer_visible c && shown) children in
  let bboxes :=
    List.filter (λ b : BBox, negb (bool_decide (b = (0, 0, 0, 0)))) bboxes in
  match bboxes with
  | [] => (0, 0, 0, 0)
  | b :: bs => foldl hull b bs
  end.

Record Document := mkDocument {
  width : Z;
  height : Z;
  layers : list Layer
}.

(** Induction over the layer tree with the hypothesis on all children. *)
Section LayerInd.
Variable P : Layer → Prop.
Hypothesis Hleaf : ∀ a, P (Leaf a).
Hypothesis Hgroup : ∀ a cs, Forall P cs → P (Group a cs).

Fixpoint Layer_forall_ind (l : Layer) : P l :=
  match l with
  | Leaf a => Hleaf a
  | Group a cs =>
      Hgroup a cs
        ((fix go (cs : list Layer) : Forall P cs :=
            match cs with
            | [] => @List.Forall_nil _ P
            | c :: cs' => @List.Forall_cons _ P c cs' (Layer_forall_ind c) (go cs')
            end) cs)
  end.
End LayerInd.

End Psd.

(** ** Rasters and the PIL calls the scripts make

    A raster is its size and its pixels in row-major order; the mode is
    the pixel type.  Channel values are bytes, kept in [Z].  The
    arithmetic below is the integer arithmetic of the library's pixel
    loops (rounded division by 255 through shifts, results stored in a
    byte). *)

Module Pil.

Record Image (P : Type) := mkImage {
  size : Z * Z;
  data : list P
}.
Arguments mkImage {P} size data.
Arguments size {P} i.
Arguments data {P} i.

Definition L : Type := Z.
Definition RGB : Type := Z * Z * Z.
Definition RGBA : Type := Z * Z * Z * Z.

Definition im_width {P} (im : Image P) : Z := (size im).1.
Definition im_height {P} (im : Image P) : Z := (size im).2.

(** Band-wise operations on a pixel, per mode. *)
Class Bands (P : Type) := {
  map2_bands : (Z → Z → Z) → P → P → P;
  zero_px : P
}.

#[export] Instance L_bands : Bands L :=
  {| map2_bands f a b := f a b; zero_px := 0 |}.

#[export] Instance RGB_bands : Bands RGB :=
  {| map2_bands f p q :=
       let '(r1, g1, b1) := p in
       let '(r2, g2, b2) := q in
       (f r1 r2, f g1 g2, f b1 b2);
     zero_px := (0, 0, 0) |}.

#[export] Instance RGBA_bands : Bands RGBA :=
  {| map2_bands f p q :=
       let '(r1, g1, b1, a1) := p in
       let '(r2, g2, b2, a2) := q in
       (f r1 r2, f g1 g2, f b1 b2, f a1 a2);
     zero_px := (0, 0, 0, 0) |}.

(** A paste mask is an "L" image or the alpha band of an "RGBA" image. *)
Class Matte (M : Type) := matte : M → Z.

#[export] Instance L_matte : Matte L := λ v, v.
#[export] Instance RGBA_matte : Matte RGBA := λ p, p.2.

(** *** Byte arithmetic *)

(** Store into a [UINT8]. *)
Definition u8 (v : Z) : Z := v mod 256.

(** [CLIP8] *)
Definition clip8 (v : Z) : Z :=
  if decide (v ≤ 0) then 0 else if decide (v < 256) then v else 255.

(** [SHIFTFORDIV255(a) = ((a >> 8) + a) >> 8] *)
Definition shift_for_div255 (a : Z) : Z := Z.shiftr (Z.shiftr a 8 + a) 8.

(** [DIV255(a) = SHIFTFORDIV255(a + 128)] *)
Definition div255 (a : Z) : Z := shift_for_div255 (a + 128).

(** [BLEND(mask, in1, in2) = DIV255(in1 * (255 - mask) + in2 * mask)] *)
Definition BLEND (mask in1 in2 : Z) : Z :=
  u8 (div255 (in1 * (255 - mask) + in2 * mask)).

(** [ImageChops.screen], one band: [255 - (255-a)(255-b)/255], clipped. *)
Definition screen_op (a b : Z) : Z :=
  clip8 (255 - ((255 - a) * (255 - b)) ÷ 255).

(** [ImageChops.multiply], one band: [a*b/255], clipped. *)
Definition multiply_op (a b : Z) : Z :=
  clip8 ((a * b) ÷ 255).

Definition PRECISION_BITS : Z := 7.

(** One pixel of [alpha_composite]: [src] over [dst]. *)
Definition alpha_composite_px (dst src : RGBA) : RGBA :=
  let '(dr, dg, db, da) := dst in
  let '(sr, sg, sb, sa) := src in
  if decide (sa = 0) then dst
  else
    let blend := da * (255 - sa) in
    let outa255 := sa * 255 + blend in
    let coef1 := (sa * 255 * 255 * Z.shiftl 1 PRECISION_BITS) ÷ outa255 in
    let coef2 := 255 * Z.shiftl 1 PRECISION_BITS - coef1 in
    let chan s d :=
      u8 (Z.shiftr (shift_for_div255 (s * coef1 + d * coef2 + Z.shiftl 128 PRECISION_BITS))
                   PRECISION_BITS) in
    (chan sr dr, chan sg dg, chan sb db, u8 (shift_for_div255 (outa255 + 128))).

(** *** Addressing *)

(** Column and row of the [i]-th pixel of a raster [w] wide. *)
Definition coords (w : Z) (i : nat) : Z * Z :=
  (Z.of_nat i mod w, Z.of_nat i / w).

(** [im.getpixel((x, y))]; [None] outside the raster. *)
Definition getpixel {P} (im : Image P) (x y : Z) : option P :=
  if decide (0 ≤ x < im_width im ∧ 0 ≤ y < im_height im)
  then data im !! Z.to_nat (y * im_width im + x)
  else None.

(** The raster holds exactly [width * height] pixels. *)
Definition well_sized {P} (im : Image P) : Prop :=
  0 ≤ im_width im ∧ 0 ≤ im_height im ∧
  length (data im) = Z.to_nat (im_width im * im_height im).

Definition is_byte (v : Z) : Prop := 0 ≤ v ≤ 255.

Definition rgba_bytes (p : RGBA) : Prop :=
  is_byte p.1.1.1 ∧ is_byte p.1.1.2 ∧ is_byte p.1.2 ∧ is_byte p.2.

(** A loaded RGBA raster: well sized, every channel a byte. *)
Definition valid_rgba (im : Image RGBA) : Prop :=
  well_sized im ∧ Forall rgba_bytes (data im).

(** *** Calls *)

(** [Image.new(mode, size, color)] *)
Definition Image_new {P} (sz : Z * Z) (color : P) : result (Image P) :=
  if decide (0 ≤ sz.1 ∧ 0 ≤ sz.2)
  then Ok {| size := sz; data := replicate (Z.to_nat (sz.1 * sz.2)) color |}
  else Raise (ValueError "Width and height must be >= 0").

(** [im.convert("RGB")] on an RGBA raster: the alpha band is dropped. *)
Definition convert_RGB (im : Image RGBA) : Image RGB :=
  {| size := size im; data := (λ p : RGBA, p.1) <$> data im |}.

(** [im.getchannel("A")] *)
Definition getchannel_A (im : Image RGBA) : Image L :=
  {| size := size im; data := (λ p : RGBA, p.2) <$> data im |}.

(** [im.point(f)] on an "L" raster: a 256-entry table of [f], clipped. *)
Definition point (f : Z → Z) (im : Image L) : Image L :=
  {| size := size im; data := (λ v, clip8 (f v)) <$> data im |}.

(** [im.putalpha(alpha)] with an "L" raster. *)
Definition putalpha (im : Image RGBA) (alpha : Image L) : result (Image RGBA) :=
  if decide (size alpha = size im)
  then Ok {| size := size im;
             data := zip_with (λ (p : RGBA) (a : L), (p.1, a)) (data im) (data alpha) |}
  else Raise (ValueError "images do not match").

(** [im.split()] on an RGB raster. *)
Definition split_RGB (im : Image RGB) : Image L * Image L * Image L :=
  ({| size := size im; data := (λ p : RGB, p.1.1) <$> data im |},
   {| size := size im; data := (λ p : RGB, p.1.2) <$> data im |},
   {| size := size im; data := (λ p : RGB, p.2) <$> data im |}).

(** [Image.merge("RGBA", (r, g, b, a))] *)
Definition merge_RGBA (r g b a : Image L) : result (Image RGBA) :=
  if decide (size g = size r ∧ size b = size r ∧ size a = size r)
  then Ok {| size := size r;
             data := zip (zip (zip (data r) (data g)) (data b)) (data a) |}
  else Raise (ValueError "size mismatch").

(** [ImageChops.<op>(im1, im2)]: the result covers the common top-left
    region of the two rasters. *)
Definition chop `{Bands P} (op : Z → Z → Z) (im1 im2 : Image P) : Image P :=
  let w := Z.min (im_width im1) (im_width im2) in
  let h := Z.min (im_height im1) (im_height im2) in
  {| size := (w, h);
     data := (λ i, map2_bands op
                     (default zero_px (getpixel im1 (i mod w) (i / w)))
                     (default zero_px (getpixel im2 (i mod w) (i / w))))
             <$> seqZ 0 (w * h) |}.

Definition ImageChops_screen `{Bands P} : Image P → Image P → Image P :=
  chop screen_op.
Definition ImageChops_multiply `{Bands P} : Image P → Image P → Image P :=
  chop multiply_op.

(** [self.paste(im, box, mask)] with a two-coordinate [box]: inside the
    region (clipped to [self]) every band becomes
    [BLEND(mask, self, im)]; [im] and [mask] must have one size. *)
Definition paste `{Bands P} `{Matte M}
    (self im : Image P) (box : Z * Z) (mask : Image M) : result (Image P) :=
  if decide (size mask = size im)
  then Ok {| size := size self;
             data := imap (λ i d,
                       let '(x, y) := coords (im_width self) i in
                       match getpixel im (x - box.1) (y - box.2),
                             getpixel mask (x - box.1) (y - box.2) with
                       | Some s, Some m => map2_bands (BLEND (matte m)) d s
                       | _, _ => d
                       end) (data self) |}
  else Raise (ValueError "images do not match").

(** [im.resize(size, resample)]: a copy when the raster already has the
    size asked for; [ValueError] when the width or the height asked for
    is below 1; otherwise what the resampling filter [resample] gives. *)
Definition resize {P} (resample : Image P → Z * Z → Image P)
    (im : Image P) (sz : Z * Z) : result (Image P) :=
  if decide (size im = sz) then Ok im
  else if decide (sz.1 < 1 ∨ sz.2 < 1)
       then Raise (ValueError "height and width must be > 0")
       else Ok (resample im sz).

(** [Image.composite(image1, image2, mask)]:
    [image2.copy()] with [image1] pasted through [mask]. *)
Definition Image_composite `{Bands P} `{Matte M}
    (image1 image2 : Image P) (mask : Image M) : result (Image P) :=
  paste image2 image1 (0, 0) mask.

(** [self.alpha_composite(im, dest)]: [im] over [self] inside the region
    at [dest] (clipped to [self]), [self] elsewhere. *)
Definition alpha_composite (self im : Image RGBA) (dest : Z * Z) : Image RGBA :=
  {| size := size self;
     data := imap (λ i d,
               let '(x, y) := coords (im_width self) i in
               match getpixel im (x - dest.1) (y - dest.2) with
               | Some s => alpha_composite_px d s
               | None => d
               end) (data self) |}.

End Pil.

(** ** A script run: the files written so far, and a value or an exception

    A run that raises keeps the files it has already written. *)

Module Script.

Inductive Content (J : Type) :=
  | PNG (im : Pil.Image Pil.RGBA)
  | PNG_RGB (im : Pil.Image Pil.RGB)
  | WEBP (im : Pil.Image Pil.RGB) (quality method : Z)
  | JSON (j : J).
Arguments PNG {J} im.
Arguments PNG_RGB {J} im.
Arguments WEBP {J} im quality method.
Arguments JSON {J} j.

(** Files written, oldest first. *)
Definition Files (J : Type) : Type := list (string * Content J).

Definition Run (J A : Type) : Type := Files J → Files J * result A.

Definition ret {J A} (a : A) : Run J A := λ fs, (fs, Ok a).

Definition bind {J A B} (c : Run J A) (k : A → Run J B) : Run J B :=
  λ fs, match c fs with
        | (fs', Ok a) => k a fs'
        | (fs', Raise e) => (fs', Raise e)
        end.

Definition raise {J A} (e : exception) : Run J A := λ fs, (fs, Raise e).

Definition lift {J A} (r : result A) : Run J A := λ fs, (fs, r).

(** [im.save(path)] and [path.write_text(...)] *)
Definition write {J} (file : string) (c : Content J) : Run J unit :=
  λ fs, (fs ++ [(file, c)], Ok tt).

Definition names {J} (fs : Files J) : list string := fs.*1.

End Script.

Declare Scope run_scope.
Delimit Scope run_scope with run.
Notation "'run' x <- c ; k" := (Script.bind c (λ x, k))
  (at level 10, x name, c at level 100, k at level 200) : run_scope.
Notation "'exec' c ; k" := (Script.bind c (λ _, k))
  (at level 10, c at level 100, k at level 200) : run_scope.

(** ** build_black_case_front_template.py *)

Module Build.
Import Psd Pil.
Local Open Scope result_scope.
Local Open Scope run_scope.

Definition LAYER_PATHS : list (string * string) := [
  ("shadow", "Shadows/Facing Down (Alt)");
  ("case", "Black VHS Case/Front Case Mokcup");
  ("design", "Black VHS Case/**Your Design Here [Double-Click]** (Sleeve Insert)");
  ("plastic", "Textures/Texture/Plastic");
  ("scratches", "Textures/Texture/Scratches + Reflection [Adjust]")
].

(** [iter_layers(group, path)]: the pairs the generator yields, in order. *)
Fixpoint iter_layer (path : string) (layer : Layer) : list (string * Layer) :=
  let current_path :=
    if decide (path = "") then layer_name layer
    else path +:+ "/" +:+ layer_name layer in
  (current_path, layer) ::
  match layer with
  | Leaf _ => []
  | Group _ children => flat_map (iter_layer current_path) children
  end.

Definition iter_layers (group : list Layer) (path : string) : list (string * Layer) :=
  flat_map (iter_layer path) group.

(** [{path: layer for path, layer in iter_layers(psd)}]: a later pair
    replaces an earlier one with the same path. *)
Definition by_path_of (psd : Document) : gmap string Layer :=
  foldl (λ m pl, <[pl.1 := pl.2]> m) ∅ (iter_layers (layers psd) "").

(** The loop of [find_layers] over the alias table. *)
Fixpoint resolve (by_path : gmap string Layer) (table : list (string * string))
    (resolved : gmap string Layer) : result (gmap string Layer) :=
  match table with
  | [] => Ok resolved
  | (alias, path) :: rest =>
      match by_path !! path with
      | None => Raise (RuntimeError ("Could not find required layer path: " +:+ path))
      | Some layer => resolve by_path rest (<[alias := layer]> resolved)
      end
  end.

(** The exception [find_layers] raises for an unresolved [path]. *)
Definition missing_message (path : string) : exception :=
  RuntimeError ("Could not find required layer path: " +:+ path).

(** The path of a table entry is a key of the path map. *)
Definition present (by_path : gmap string Layer) (ap : string * string) : Prop :=
  is_Some (by_path !! ap.2).

(** [find_layers(psd)], for any alias table. *)
Definition find_layers_with (table : list (string * string)) (psd : Document)
    : result (gmap string Layer) :=
  resolve (by_path_of psd) table ∅.

Definition find_layers (psd : Document) : result (gmap string Layer) :=
  find_layers_with LAYER_PATHS psd.

(** [int(value * scale)], the float [scale] taken as the rational it
    denotes.  The double product is this rational product whenever
    [exact_scale] below holds of the scale, as it does of 0 and 1/2. *)
Definition int_scaled (value : Z) (scale : Q) : Z :=
  (value * Qnum scale) ÷ Z.pos (Qden scale).

(** Scales on which the double arithmetic of [value * scale] is exact
    for every byte [value], with a product that fits a 32-bit C long: a
    binary fraction [n / 2^k] with [|n| <= 2^23] and [k <= 1000]. *)
Definition exact_scale (scale : Q) : Prop :=
  ∃ k : nat, (k ≤ 1000)%nat ∧
             Z.pos (Qden scale) = 2 ^ Z.of_nat k ∧
             Z.abs (Qnum scale) ≤ 2 ^ 23.

(** [apply_alpha_scale(image, scale)], for a scale in [exact_scale].
    Outside it the double product can differ from the rational one, and
    a product beyond a C long, or a NaN, makes [point] raise. *)
Definition apply_alpha_scale (image : Image RGBA) (scale : Q) : result (Image RGBA) :=
  if Qle_bool 1 scale then Ok image
  else
    let result := image in
    let alpha := point (λ value, int_scaled value scale) (getchannel_A result) in
    putalpha result alpha.

(** [screen_blend(base, overlay)] *)
Definition screen_blend (base overlay : Image RGBA) : result (Image RGBA) :=
  let base_rgb := convert_RGB base in
  let overlay_rgb := convert_RGB overlay in
  let screened := ImageChops_screen base_rgb overlay_rgb in
  let alpha := getchannel_A overlay in
  do blended_rgb <- Image_composite screened base_rgb alpha;
  let '(r, g, b) := split_RGB blended_rgb in
  merge_RGBA r g b (getchannel_A base).

(** [compose_placeholder_cover(shadow, case, design, plastic, scratches)] *)
Definition compose_placeholder_cover
    (shadow case design plastic scratches : Image RGBA) : result (Image RGBA) :=
  do canvas <- Image_new (size case) ((0, 0, 0, 0) : RGBA);
  do shadow_half <- apply_alpha_scale shadow (1 # 2);
  let canvas := alpha_composite canvas shadow_half (0, 0) in
  let canvas := alpha_composite canvas case (0, 0) in
  let canvas := alpha_composite canvas design (0, 0) in
  do canvas <- screen_blend canvas plastic;
  do scratches_half <- apply_alpha_scale scratches (1 # 2);
  Ok (alpha_composite canvas scratches_half (0, 0)).

(** The written metadata. *)
Record Rect := mkRect {
  left : Z;
  top : Z;
  rect_width : Z;
  rect_height : Z
}.

Record BlendEntry := mkBlendEntry {
  publicPath : string;
  blend : string;
  opacity : Q
}.

Record Metadata := mkMetadata {
  sourcePsbName : string;
  output : Z * Z;
  poster : Rect;
  underlays : list BlendEntry;
  overlays : list BlendEntry
}.

Definition underlay_entries : list BlendEntry := [
  mkBlendEntry "/VHS/templates/black-case-front/front-shadow-underlay.png" "over" (1 # 2);
  mkBlendEntry "/VHS/templates/black-case-front/front-case-underlay.png" "over" 1
].

Definition overlay_entries : list BlendEntry := [
  mkBlendEntry "/VHS/templates/black-case-front/front-texture-plastic.png" "screen" 1;
  mkBlendEntry "/VHS/templates/black-case-front/front-texture-scratches.png" "over" (1 # 2)
].

(** [layers[alias]] *)
Definition item (layers : gmap string Layer) (alias : string) : result Layer :=
  match layers !! alias with
  | Some layer => Ok layer
  | None => Raise (KeyError alias)
  end.

Section Rendering.

(** [layer.composite().convert("RGBA")], the document library's renderer. *)
Variable layer_composite : Layer → Image RGBA.

(** [to_canvas(psd, layer)] *)
Definition to_canvas (psd : Document) (layer : Layer) : result (Image RGBA) :=
  do canvas <- Image_new (width psd, height psd) ((0, 0, 0, 0) : RGBA);
  let composite := layer_composite layer in
  let '(x1, y1, _, _) := layer_bbox layer in
  Ok (alpha_composite canvas composite (x1, y1)).

(** [main()]: [psb_path] is the resolved [--psb] argument, [psb_name] its
    last component, [psb_exists] whether the file is there and [psd] the
    document it opens to. *)
Definition main (psb_path psb_name : string) (psb_exists : bool) (psd : Document)
    : Script.Run Metadata Z :=
  if negb psb_exists
  then Script.raise (SystemExit ("PSB file not found: " +:+ psb_path))
  else
    run layers <- Script.lift (find_layers psd);
    run shadow <- Script.lift (do l <- item layers "shadow"; to_canvas psd l);
    run case <- Script.lift (do l <- item layers "case"; to_canvas psd l);
    run design <- Script.lift (do l <- item layers "design"; to_canvas psd l);
    run plastic <- Script.lift (do l <- item layers "plastic"; to_canvas psd l);
    run scratches <- Script.lift (do l <- item layers "scratches"; to_canvas psd l);
    exec Script.write "front-shadow-underlay.png" (Script.PNG shadow);
    exec Script.write "front-case-underlay.png" (Script.PNG case);
    exec Script.write "front-placeholder-design.png" (Script.PNG design);
    exec Script.write "front-texture-plastic.png" (Script.PNG plastic);
    exec Script.write "front-texture-scratches.png" (Script.PNG scratches);
    run placeholder_cover <-
      Script.lift (compose_placeholder_cover shadow case design plastic scratches);
    exec Script.write "front-placeholder-cover.png" (Script.PNG placeholder_cover);
    exec Script.write "front-placeholder-cover.webp"
          (Script.WEBP (convert_RGB placeholder_cover) 86 6);
    run design_layer <- Script.lift (item layers "design");
    let '(x1, y1, x2, y2) := layer_bbox design_layer in
    let metadata :=
      {| sourcePsbName := psb_name;
         output := (width psd, height psd);
         poster := {| left := x1; top := y1;
                      rect_width := x2 - x1; rect_height := y2 - y1 |};
         underlays := underlay_entries;
         overlays := overlay_entries |} in
    exec Script.write "front-metadata.json" (Script.JSON metadata);
    Script.ret 0.

End Rendering.

End Build.

(** ** inspect_black_case_psb.py *)

Module Inspect.
Import Psd.

(** [iter_layers(group)] *)
Fixpoint iter_layer (layer : Layer) : list Layer :=
  layer ::
  match layer with
  | Leaf _ => []
  | Group _ children => flat_map iter_layer children
  end.

Definition iter_layers (group : list Layer) : list Layer :=
  flat_map iter_layer group.

Record InfoBBox := mkInfoBBox {
  x : Z;
  y : Z;
  bbox_width : Z;
  bbox_height : Z
}.

(** The [info] dictionary of one layer. *)
Record Info := mkInfo {
  info_name : string;
  info_path : string;
  info_kind : option string;
  info_bbox : InfoBBox;
  info_visible : bool
}.

(** The [entry] dictionary of one document. *)
Record Entry := mkEntry {
  file : string;
  entry_name : string;
  entry_width : Z;
  entry_height : Z;
  smartObjects : list Info;
  keyLayers : list Info
}.

Definition KEY_TOKENS : list string :=
  ["texture"; "shadow"; "lighting"; "design here"; "mockup"; "front"; "back"; "spine"].

(** [any(token in lower for token in (...))] *)
Definition has_key_token (lower : string) : bool :=
  existsb (λ token, Str.contains lower token) KEY_TOKENS.

Definition append_smartObject (info : Info) (entry : Entry) : Entry :=
  {| file := file entry; entry_name := entry_name entry;
     entry_width := entry_width entry; entry_height := entry_height entry;
     smartObjects := smartObjects entry ++ [info];
     keyLayers := keyLayers entry |}.

Definition append_keyLayer (info : Info) (entry : Entry) : Entry :=
  {| file := file entry; entry_name := entry_name entry;
     entry_width := entry_width entry; entry_height := entry_height entry;
     smartObjects := smartObjects entry;
     keyLayers := keyLayers entry ++ [info] |}.

(** The [info] built at the head of [walk].  [layer.is_visible()] is the
    layer's own flag and that of every group above it, passed down here as
    [parent_visible]. *)
Definition make_info (parent_visible : bool) (layer : Layer) (path : list string) : Info :=
  let '(x1, y1, x2, y2) := layer_bbox layer in
  {| info_name := layer_name layer;
     info_path := Str.join " > " path;
     info_kind := layer_kind layer;
     info_bbox := {| x := x1; y := y1; bbox_width := x2 - x1; bbox_height := y2 - y1 |};
     info_visible := layer_visible layer && parent_visible |}.

Section Lowering.

(** [str.lower], which the interpreter applies to the Unicode text of a
    name; a name is held here as its UTF-8 bytes. *)
Variable str_lower : string → string.

(** [walk(layer, path_parts)], threading the [entry] it appends to. *)
Fixpoint walk (parent_visible : bool) (layer : Layer) (path_parts : list string)
    (entry : Entry) : Entry :=
  let path := path_parts ++ [layer_name layer] in
  let info := make_info parent_visible layer path in
  let entry :=
    if decide (info_kind info = Some "smartobject")
    then append_smartObject info entry else entry in
  let lower := str_lower (layer_name layer) in
  let entry :=
    if has_key_token lower then append_keyLayer info entry else entry in
  match layer with
  | Leaf _ => entry
  | Group _ children =>
      fold_left (λ entry child, walk (info_visible info) child path entry)
                children entry
  end.

(** One iteration of the loop over files in [collect_inventory]. *)
Definition inventory_entry (file_path file_name : string) (psd : Document) : Entry :=
  let entry :=
    {| file := file_path; entry_name := file_name;
       entry_width := width psd; entry_height := height psd;
       smartObjects := []; keyLayers := [] |} in
  fold_left (λ entry root_layer, walk true root_layer [] entry) (layers psd) entry.

(** [collect_inventory]: the files, already opened, in the sorted order
    [Mockups/*.psb] then [Template/*.psb]. *)
Definition collect_inventory (files : list (string * string * Document)) : list Entry :=
  (λ f : string * string * Document, inventory_entry f.1.1 f.1.2 f.2) <$> files.

(** The layers [walk] visits from the roots, each with the arguments it
    is visited with. *)
Fixpoint visits (parent_visible : bool) (layer : Layer) (path_parts : list string)
    : list Info :=
  let path := path_parts ++ [layer_name layer] in
  let info := make_info parent_visible layer path in
  info ::
  match layer with
  | Leaf _ => []
  | Group _ children =>
      flat_map (λ child, visits (info_visible info) child path) children
  end.

Definition document_visits (psd : Document) : list Info :=
  flat_map (λ root_layer, visits true root_layer []) (layers psd).

(** The two tests of [walk], as predicates on an [info]. *)
Definition is_smart_object (info : Info) : bool :=
  bool_decide (info_kind info = Some "smartobject").

Definition is_key_layer (info : Info) : bool :=
  has_key_token (str_lower (info_name info)).

End Lowering.

(** What [str.lower] does to a stretch of ASCII characters inside a name:
    it lowers the stretch as ASCII, whatever comes before and after. *)
Definition lowers_ascii (str_lower : string → string) : Prop :=
  ∀ pre mid post, Str.is_ascii mid = true →
    ∃ pre' post', str_lower (pre +:+ mid +:+ post) = pre' +:+ Str.lower mid +:+ post'.

(** An entry with more infos appended to its two lists. *)
Definition extend (entry : Entry) (smart key : list Info) : Entry :=
  {| file := file entry; entry_name := entry_name entry;
     entry_width := entry_width entry; entry_height := entry_height entry;
     smartObjects := smartObjects entry ++ smart;
     keyLayers := keyLayers entry ++ key |}.

End Inspect.

(** ** prototype_black_case_front.py: traversal and lookup by exact name *)

Module Prototype.
Import Psd Pil.
Local Open Scope run_scope.

(** [iter_layers(group)]: the generator, as the list of what it yields. *)
Fixpoint iter_layer (layer : Layer) : list Layer :=
  layer ::
  match layer with
  | Leaf _ => []
  | Group _ children => flat_map iter_layer children
  end.

Definition iter_layers (group : list Layer) : list Layer :=
  flat_map iter_layer group.

(** [find_layer(psd, exact_name)] *)
Definition find_layer (psd : Document) (exact_name : string) : option Layer :=
  List.find (λ layer, bool_decide (layer_name layer = exact_name))
            (iter_layers (layers psd)).

Definition DESIGN_LAYER : string :=
  "**Your Design Here [Double-Click]** (Sleeve Insert)".
Definition BACKGROUND_LAYER : string := "Background Color [Double-Click]".

(** The assignment [layer.visible = False] of the loop, on the layers
    whose name contains the marker. *)
Definition hide_attrs (a : Attrs) : Attrs :=
  if Str.contains (name a) "Your Design Here"
  then {| name := name a; kind := kind a; bbox := bbox a; visible := false |}
  else a.

(** The document after the loop.  The tree keeps its shape, names and
    kinds and a leaf keeps its box; the box of a group, which the
    library derives from the visible children and which nothing has read
    before the loop, is the one derived from the flags as they now are.
    [shown] says whether every group above the layer is visible. *)
Fixpoint hide_layer (shown : bool) (layer : Layer) : Layer :=
  match layer with
  | Leaf a => Leaf (hide_attrs a)
  | Group a children =>
      let a' := hide_attrs a in
      let shown' := visible a' && shown in
      let children' := map (hide_layer shown') children in
      Group {| name := name a'; kind := kind a';
               bbox := extract_bbox shown' children';
               visible := visible a' |}
            children'
  end.

Definition hide_design (psd : Document) : Document :=
  {| width := width psd; height := height psd;
     layers := map (hide_layer true) (layers psd) |}.

(** [l'] is the layer [l] as the loop leaves it, under some groups. *)
Definition hidden_of (l' l : Layer) : Prop := ∃ shown, l' = hide_layer shown l.

(** A layer found before the loop, as the loop leaves it.  For a layer
    whose name carries the marker the groups above it make no
    difference: its own flag is cleared. *)
Definition as_hidden (layer : Layer) : Layer := hide_layer true layer.

Section Pipeline.

(** The library calls whose pixels the script does not compute itself. *)
Variable psd_composite : Document → Image RGBA.
Variable layer_composite : Layer → Image RGBA.
Variable load_poster_image : string → result (Image RGBA).
Variable resample_LANCZOS : Image RGBA → Z * Z → Image RGBA.
Variable Image_blend : Image RGB → Image RGB → Q → result (Image RGB).

(** [paste_cover(base, cover, bbox)] *)
Definition paste_cover (base cover : Image RGBA) (bbox : BBox) : result (Image RGBA) :=
  let '(x1, y1, x2, y2) := bbox in
  let '(w, h) := (x2 - x1, y2 - y1) in
  match resize resample_LANCZOS cover (w, h) with
  | Ok resized => paste base resized (x1, y1) resized
  | Raise e => Raise e
  end.

(** [main()]: [poster_arg] is the [--poster] argument, [psd] the opened
    document.  The design layer found first is the object whose box is
    read after the loop, in the state the loop left it in. *)
Definition main (poster_arg : string) (psd : Document) : Script.Run unit unit :=
  run design_layer <-
    match find_layer psd DESIGN_LAYER with
    | None => Script.raise (SystemExit "Could not find FRONT smart-object design layer.")
    | Some layer => Script.ret layer
    end;
  let psd := hide_design psd in
  let no_design := psd_composite psd in
  exec Script.write "front_full_no_design.png" (Script.PNG no_design);
  run bg_layer <-
    match find_layer psd BACKGROUND_LAYER with
    | None => Script.raise (SystemExit "Could not find background layer.")
    | Some layer => Script.ret layer
    end;
  let background := layer_composite bg_layer in
  run poster <- Script.lift (load_poster_image poster_arg);
  run poster_canvas <- Script.lift (Image_new (size no_design) ((0, 0, 0, 0) : RGBA));
  run poster_canvas <-
    Script.lift (paste_cover poster_canvas poster (layer_bbox (as_hidden design_layer)));
  let base := alpha_composite background poster_canvas (0, 0) in
  let no_design_rgb := convert_RGB no_design in
  let base_rgb := convert_RGB base in
  let over := alpha_composite base no_design (0, 0) in
  exec Script.write "front_proto_over.png" (Script.PNG over);
  let multiply_rgb := ImageChops_multiply base_rgb no_design_rgb in
  run multiply <- Script.lift (Image_blend base_rgb multiply_rgb (82 # 100));
  exec Script.write "front_proto_multiply.png" (Script.PNG_RGB multiply);
  let screen_rgb := ImageChops_screen base_rgb no_design_rgb in
  run screen <- Script.lift (Image_blend base_rgb screen_rgb (38 # 100));
  exec Script.write "front_proto_screen.png" (Script.PNG_RGB screen);
  Script.ret tt.

End Pipeline.

End Prototype.

(** ** Small documents and rasters used in the examples *)

Module Examples.
Import Psd Pil.

Definition leaf (n : string) (k : string) (b : BBox) : Layer :=
  Leaf (mkAttrs n (Some k) b true).

Definition group (n : string) (children : list Layer) : Layer :=
  Group (mkAttrs n (Some "group") (0, 0, 4, 4) true) children.

Definition design_leaf : Layer :=
  leaf "**Your Design Here [Double-Click]** (Sleeve Insert)" "smartobject" (1, 1, 3, 4).

(** A document with the five layers the build script asks for. *)
Definition front_psd : Document :=
  {| width := 4; height := 4;
     layers := [
       group "Shadows" [leaf "Facing Down (Alt)" "pixel" (0, 2, 4, 4)];
       group "Black VHS Case" [leaf "Front Case Mokcup" "pixel" (0, 0, 4, 4); design_leaf];
       group "Textures" [
         group "Texture" [
           leaf "Plastic" "pixel" (0, 0, 4, 4);
           leaf "Scratches + Reflection [Adjust]" "pixel" (0, 0, 2, 2)]];
       leaf "Background Color [Double-Click]" "solidcolorfill" (0, 0, 4, 4)] |}.

(** The same document without its plastic texture. *)
Definition no_plastic_psd : Document :=
  {| width := 4; height := 4;
     layers := [
       group "Shadows" [leaf "Facing Down (Alt)" "pixel" (0, 2, 4, 4)];
       group "Black VHS Case" [leaf "Front Case Mokcup" "pixel" (0, 0, 4, 4); design_leaf];
       group "Textures" [
         group "Texture" [
           leaf "Scratches + Reflection [Adjust]" "pixel" (0, 0, 2, 2)]]] |}.

(** A document with the design layer and no background layer. *)
Definition design_only_psd : Document :=
  {| width := 4; height := 4; layers := [group "Black VHS Case" [design_leaf]] |}.

(** A document with a background layer and no design layer. *)
Definition background_only_psd : Document :=
  {| width := 4; height := 4;
     layers := [leaf "Background Color [Double-Click]" "solidcolorfill" (0, 0, 4, 4)] |}.

(** A document for the inventory. *)
Definition lighting_psd : Document :=
  {| width := 4; height := 4;
     layers := [group "Mockup" [leaf "Front Lighting Adjust" "pixel" (0, 0, 4, 4);
                                leaf "Insert" "smartobject" (1, 1, 3, 3)]] |}.

Definition lighting_info : Inspect.Info :=
  Inspect.make_info true (leaf "Front Lighting Adjust" "pixel" (0, 0, 4, 4))
                    ["Mockup"; "Front Lighting Adjust"].

(** Two-pixel rasters. *)
Definition base_2x1 : Image RGBA :=
  {| size := (2, 1); data := [(10, 20, 30, 255); (200, 100, 50, 128)] |}.

Definition clear_2x1 : Image RGBA :=
  {| size := (2, 1); data := [(9, 9, 9, 0); (255, 255, 255, 0)] |}.

Definition overlay_2x1 : Image RGBA :=
  {| size := (2, 1); data := [(255, 0, 128, 255); (40, 50, 60, 0)] |}.

Definition render_2x1 (_ : Layer) : Image RGBA := base_2x1.

(** A resampler that fills the requested size with the first pixel. *)
Definition fill_resize (im : Image RGBA) (sz : Z * Z) : Image RGBA :=
  {| size := sz;
     data := replicate (Z.to_nat (sz.1 * sz.2)) (default (0, 0, 0, 0) (head (data im))) |}.

Definition poster_1x1 : Image RGBA :=
  {| size := (1, 1); data := [(250, 128, 0, 255)] |}.


Definition render_doc (_ : Document) : Image RGBA := base_2x1.
Definition no_poster (_ : string) : result (Image RGBA) :=
  Raise (ValueError "no poster").
Definition first_of_blend (a _ : Image RGB) (_ : Q) : result (Image RGB) := Ok a.

End Examples.

(** ** prototype_black_case_front.py: loading the poster *)

Module Poster.
Import Pil.

Section Loader.

(** [Image.open(io.BytesIO(urlopen(value).read())).convert("RGBA")] and
    [Image.open(value).convert("RGBA")]: the network and the file system
    are outside the script. *)
Variable fetch_url : string → result (Image RGBA).
Variable open_file : string → result (Image RGBA).

(** [load_poster_image(value)] *)
Definition load_poster_image (value : string) : result (Image RGBA) :=
  if Str.starts_with value "http://" || Str.starts_with value "https://"
  then fetch_url value
  else open_file value.

End Loader.

End Poster.

(** ** Paths and boxes, for the statements about the traversals *)

Module Paths.
Import Psd.

(** Every layer with the names of its ancestors and its own, outermost
    first, in traversal order. *)
Fixpoint named (parts : list string) (layer : Layer) : list (list string * Layer) :=
  let own := parts ++ [layer_name layer] in
  (own, layer) ::
  match layer with
  | Leaf _ => []
  | Group _ children => flat_map (named own) children
  end.

(** No group in the tree has the empty name. *)
Fixpoint groups_named (layer : Layer) : Prop :=
  match layer with
  | Leaf _ => True
  | Group a children =>
      name a ≠ "" ∧
      (fix all (cs : list Layer) : Prop :=
         match cs with
         | [] => True
         | c :: cs' => groups_named c ∧ all cs'
         end) children
  end.

(** A box as origin and size, as the inventory records it. *)
Definition box_of (b : BBox) : Inspect.InfoBBox :=
  let '(x1, y1, x2, y2) := b in
  {| Inspect.x := x1; Inspect.y := y1;
     Inspect.bbox_width := x2 - x1; Inspect.bbox_height := y2 - y1 |}.

End Paths.

(** ** Names used in the statements about whole runs *)

Module Outputs.


(** The files the prototype script writes, in the order it writes them. *)
Definition prototype_files : list string :=
  ["front_full_no_design.png"; "front_proto_over.png";
   "front_proto_multiply.png"; "front_proto_screen.png"].

End Outputs.

(** ** More inputs for the examples *)

Module MoreExamples.
Import Psd Pil Examples.

Definition wide_3x1 : Image RGBA :=
  {| size := (3, 1); data := [(1, 2, 3, 4); (5, 6, 7, 8); (9, 10, 11, 12)] |}.

Definition one_poster (_ : string) : result (Image RGBA) := Ok poster_1x1.

Definition fetched (value : string) : result (Image RGBA) :=
  Raise (ValueError ("fetched " +:+ value)).

Definition opened (value : string) : result (Image RGBA) :=
  Raise (ValueError ("opened " +:+ value)).

Definition upper_front_info : Inspect.Info :=
  Inspect.make_info true (leaf "FRONT Cover" "pixel" (0, 0, 4, 4)) ["FRONT Cover"].



End MoreExamples.

(** * Properties *)

(** ** Pixel arithmetic and addressing *)

Module PilFacts.
Import Pil.

Lemma bytes_forall (P : Z → bool) :
  forallb P (seqZ 0 256) = true → ∀ a, is_byte a → P a = true.
Proof.
  intros H a Ha. rewrite forallb_forall in H. apply H.
  apply list_elem_of_In, elem_of_seqZ. unfold is_byte in Ha. lia.
Qed.

Lemma u8_byte a : is_byte a → u8 a = a.
Proof. intros Ha. unfold u8, is_byte in *. apply Z.mod_small. lia. Qed.

Lemma div255_scaled a : is_byte a → div255 (a * 255) = a.
Proof.
  intros Ha. apply Z.eqb_eq.
  apply (bytes_forall (λ a, div255 (a * 255) =? a)); [by vm_compute | done].
Qed.

(** A zero mask keeps the pixel under it, a full mask replaces it. *)
Lemma BLEND_mask_0 a s : is_byte a → BLEND 0 a s = a.
Proof.
  intros Ha. unfold BLEND.
  replace (a * (255 - 0) + s * 0) with (a * 255) by lia.
  by rewrite div255_scaled, u8_byte.
Qed.

Lemma BLEND_mask_255 a s : is_byte s → BLEND 255 a s = s.
Proof.
  intros Hs. unfold BLEND.
  replace (a * (255 - 255) + s * 255) with (s * 255) by lia.
  by rewrite div255_scaled, u8_byte.
Qed.

(** On bytes the clip of [ImageChops.screen] never applies. *)
Lemma screen_op_bytes a b :
  is_byte a → is_byte b →
  screen_op a b = 255 - ((255 - a) * (255 - b)) / 255 ∧ is_byte (screen_op a b).
Proof.
  intros Ha Hb. unfold screen_op, is_byte in *.
  rewrite Z.quot_div_nonneg by nia.
  assert (0 ≤ (255 - a) * (255 - b) / 255 ≤ 255) as Hq.
  { split; [apply Z.div_pos; nia|].
    apply Z.div_le_upper_bound; nia. }
  unfold clip8. repeat case_decide; lia.
Qed.

Lemma bytes_forall2 (P : Z → Z → bool) :
  forallb (λ a, forallb (P a) (seqZ 0 256)) (seqZ 0 256) = true →
  ∀ a b, is_byte a → is_byte b → P a b = true.
Proof.
  intros H a b Ha Hb.
  apply (bytes_forall (P a)); [|done].
  by apply (bytes_forall (λ a, forallb (P a) (seqZ 0 256))).
Qed.

(** The shift form is division by 255 rounded to nearest, on every value
    a blend of bytes can take. *)
Lemma div255_round x : 0 ≤ x ≤ 65025 → div255 x = (x + 127) / 255.
Proof.
  intros Hx.
  pose proof (Z.div_mod x 256 ltac:(lia)) as Hdm.
  pose proof (Z.mod_pos_bound x 256 ltac:(lia)) as Hlo.
  assert (0 ≤ x / 256 ≤ 255) as Hhi.
  { split; [apply Z.div_pos; lia | apply Z.div_le_upper_bound; lia]. }
  pose proof (bytes_forall2
    (λ hi lo, let v := 256 * hi + lo in
              (65025 <? v) || (div255 v =? (v + 127) / 255))
    ltac:(by vm_compute) (x / 256) (x mod 256)
    ltac:(unfold is_byte; lia) ltac:(unfold is_byte; lia)) as Hc.
  cbv beta zeta in Hc. rewrite <- Hdm in Hc.
  apply orb_true_iff in Hc as [Hc|Hc].
  - apply Z.ltb_lt in Hc. lia.
  - by apply Z.eqb_eq in Hc.
Qed.

Lemma BLEND_round m a s :
  is_byte m → is_byte a → is_byte s →
  BLEND m a s = (a * (255 - m) + s * m + 127) / 255.
Proof.
  unfold is_byte. intros Hm Ha Hs. unfold BLEND.
  assert (0 ≤ a * (255 - m) + s * m ≤ 65025) as Hr by nia.
  rewrite div255_round by done. apply u8_byte. unfold is_byte.
  split; [apply Z.div_pos; lia|].
  apply Z.lt_succ_r, Z.div_lt_upper_bound; lia.
Qed.

(** Over a transparent pixel, a source pixel with some alpha is kept. *)
Lemma alpha_composite_px_over_transparent (s : RGBA) :
  rgba_bytes s →
  alpha_composite_px (0, 0, 0, 0) s = if decide (s.2 = 0) then (0, 0, 0, 0) else s.
Proof.
  destruct s as [[[r g] b] a]. intros (Hr & Hg & Hb & Ha). simpl in *.
  unfold alpha_composite_px. case_decide as Hz; [done|].
  pose proof (bytes_forall2
    (λ a c, (a =? 0) ||
      ((u8 (Z.shiftr (shift_for_div255
              (c * ((a * 255 * 255 * Z.shiftl 1 PRECISION_BITS) ÷ (a * 255 + 0 * (255 - a)))
               + 0 * (255 * Z.shiftl 1 PRECISION_BITS
                      - (a * 255 * 255 * Z.shiftl 1 PRECISION_BITS) ÷ (a * 255 + 0 * (255 - a)))
               + Z.shiftl 128 PRECISION_BITS)) PRECISION_BITS) =? c)
       && (u8 (shift_for_div255 (a * 255 + 0 * (255 - a) + 128)) =? a)))
    ltac:(by vm_compute)) as Hc.
  assert (∀ c, is_byte c →
    u8 (Z.shiftr (shift_for_div255
          (c * ((a * 255 * 255 * Z.shiftl 1 PRECISION_BITS) ÷ (a * 255 + 0 * (255 - a)))
           + 0 * (255 * Z.shiftl 1 PRECISION_BITS
                  - (a * 255 * 255 * Z.shiftl 1 PRECISION_BITS) ÷ (a * 255 + 0 * (255 - a)))
           + Z.shiftl 128 PRECISION_BITS)) PRECISION_BITS) = c ∧
    u8 (shift_for_div255 (a * 255 + 0 * (255 - a) + 128)) = a) as Hchan.
  { intros c Hcb. specialize (Hc a c Ha Hcb).
    apply orb_true_iff in Hc as [Hc|Hc]; [apply Z.eqb_eq in Hc; done|].
    apply andb_true_iff in Hc as [H1 H2]. by apply Z.eqb_eq in H1, H2. }
  destruct (Hchan r Hr) as [-> ->].
  destruct (Hchan g Hg) as [-> _].
  by destruct (Hchan b Hb) as [-> _].
Qed.

Lemma alpha_composite_px_transparent_src d (r g b : Z) :
  alpha_composite_px d (r, g, b, 0) = d.
Proof. by destruct d as [[[dr dg] db] da]. Qed.

(** *** Row-major addressing *)

Lemma coords_index w x y :
  0 ≤ x < w → 0 ≤ y → coords w (Z.to_nat (y * w + x)) = (x, y).
Proof.
  intros Hx Hy. unfold coords. rewrite Z2Nat.id by nia.
  f_equal.
  - rewrite Z.add_comm, Z.mod_add by lia. apply Z.mod_small; lia.
  - rewrite Z.add_comm, Z.div_add by lia. rewrite Z.div_small; lia.
Qed.

Lemma column_row_of_index w x y :
  0 ≤ x < w → 0 ≤ y →
  Z.of_nat (Z.to_nat (y * w + x)) `mod` w = x ∧
  Z.of_nat (Z.to_nat (y * w + x)) `div` w = y.
Proof.
  intros Hx Hy. pose proof (coords_index w x y Hx Hy) as Hc.
  unfold coords in Hc. by injection Hc.
Qed.

Lemma index_in_range w h x y :
  0 ≤ x < w → 0 ≤ y < h → 0 ≤ y * w + x < w * h.
Proof. nia. Qed.

Lemma getpixel_inside {P} (im : Image P) x y :
  0 ≤ x < im_width im → 0 ≤ y < im_height im →
  getpixel im x y = data im !! Z.to_nat (y * im_width im + x).
Proof. intros Hx Hy. unfold getpixel. by rewrite decide_True. Qed.


Lemma getpixel_is_Some {P} (im : Image P) x y :
  well_sized im → 0 ≤ x < im_width im → 0 ≤ y < im_height im →
  is_Some (getpixel im x y).
Proof.
  intros (Hw & Hh & Hlen) Hx Hy. rewrite getpixel_inside by done.
  apply lookup_lt_is_Some. rewrite Hlen.
  pose proof (index_in_range _ _ _ _ Hx Hy). lia.
Qed.

Lemma getpixel_elem_of {P} (im : Image P) x y p :
  getpixel im x y = Some p → p ∈ data im.
Proof.
  unfold getpixel. case_decide; [|done]. intros Hlook.
  apply list_elem_of_lookup. eauto.
Qed.

(** Reading a pixel of a raster made by [imap] over another one. *)
Lemma getpixel_imap {P} (f : nat → P → P) (sz : Z * Z) (l : list P) x y :
  0 ≤ x < sz.1 → 0 ≤ y < sz.2 →
  getpixel (mkImage sz (imap f l)) x y =
  f (Z.to_nat (y * sz.1 + x)) <$> getpixel (mkImage sz l) x y.
Proof.
  intros Hx Hy. rewrite !getpixel_inside by done. simpl.
  unfold im_width. simpl. apply list_lookup_imap.
Qed.

Lemma image_eta {P} (im : Image P) : mkImage (size im) (data im) = im.
Proof. by destruct im. Qed.


Lemma imap_id_on {A} (f : nat → A → A) (l : list A) :
  (∀ i d, l !! i = Some d → f i d = d) → imap f l = l.
Proof.
  intros H. apply list_eq. intros i. rewrite list_lookup_imap.
  destruct (l !! i) eqn:E; simpl; [|done]. f_equal. by apply H.
Qed.

Lemma zip3_split (l : list RGB) :
  zip (zip ((λ p : RGB, p.1.1) <$> l) ((λ p : RGB, p.1.2) <$> l))
      ((λ p : RGB, p.2) <$> l) = l.
Proof.
  induction l as [|[[r g] b] l IH]; [done|]. simpl. f_equal. exact IH.
Qed.

Lemma zip_rgb_alpha (l : list RGBA) :
  zip ((λ p : RGBA, p.1) <$> l) ((λ p : RGBA, p.2) <$> l) = l.
Proof.
  induction l as [|[rgb a] l IH]; [done|]. simpl. f_equal. exact IH.
Qed.

End PilFacts.

Module PrototypeFacts.
Import Psd Prototype.

Lemma iter_layers_cons l rest :
  iter_layers (l :: rest) = iter_layer l ++ iter_layers rest.
Proof. reflexivity. Qed.

Lemma find_first_split {A} (p : A → bool) (xs : list A) (x : A) :
  List.find p xs = Some x ↔
  ∃ pre post, xs = pre ++ x :: post ∧ p x = true ∧ Forall (λ y, p y = false) pre.
Proof.
  induction xs as [|y xs IH]; simpl.
  - split; [discriminate|]. intros (pre & post & E & _). by destruct pre.
  - destruct (p y) eqn:Hy.
    + split.
      * intros [= ->]. exists [], xs. auto.
      * intros (pre & post & E & Hx & Hpre). destruct pre as [|z pre]; simpl in E.
        -- congruence.
        -- injection E as -> ->. inversion Hpre; congruence.
    + rewrite IH. split.
      * intros (pre & post & -> & Hx & Hpre). exists (y :: pre), post. auto.
      * intros (pre & post & E & Hx & Hpre). destruct pre as [|z pre]; simpl in E.
        -- injection E as -> ->. congruence.
        -- injection E as -> ->. inversion Hpre; subst. eauto.
Qed.

Lemma find_none_all {A} (p : A → bool) (xs : list A) :
  List.find p xs = None ↔ Forall (λ y, p y = false) xs.
Proof.
  induction xs as [|y xs IH]; simpl; [by split|].
  destruct (p y) eqn:Hy.
  - split; [discriminate|]. inversion 1; congruence.
  - rewrite IH. split; [by constructor|]. by inversion 1.
Qed.

(** C10. [find_layer] returns the first layer, in depth-first preorder
    (a group before its children, children in document order), whose
    name equals the given string; it returns [None] exactly when no
    layer has that name. *)
Theorem find_layer_first_in_preorder (psd : Document) (exact_name : string) :
  (∀ a rest, iter_layers (Leaf a :: rest) = Leaf a :: iter_layers rest) ∧
  (∀ a cs rest,
      iter_layers (Group a cs :: rest) =
      Group a cs :: iter_layers cs ++ iter_layers rest) ∧
  (find_layer psd exact_name = None ↔
   ∀ l, l ∈ iter_layers (layers psd) → layer_name l ≠ exact_name) ∧
  (∀ l, find_layer psd exact_name = Some l ↔
        ∃ pre post,
          iter_layers (layers psd) = pre ++ l :: post ∧
          layer_name l = exact_name ∧
          Forall (λ l', layer_name l' ≠ exact_name) pre).
Proof.
  split; [reflexivity|]. split; [reflexivity|]. split.
  - unfold find_layer. rewrite find_none_all, Forall_forall.
    split; intros H l Hl.
    + specialize (H l Hl). by apply bool_decide_eq_false in H.
    + apply bool_decide_eq_false. by apply H.
  - intros l. unfold find_layer. rewrite find_first_split.
    split; intros (pre & post & E & Hn & Hpre); exists pre, post;
      (split; [exact E|]).
    + apply bool_decide_eq_true in Hn. split; [exact Hn|].
      eapply Forall_impl; [exact Hpre|]. intros l' Hl'.
      by apply bool_decide_eq_false in Hl'.
    + split; [by apply bool_decide_eq_true|].
      eapply Forall_impl; [exact Hpre|]. intros l' Hl'.
      by apply bool_decide_eq_false.
Qed.

End PrototypeFacts.

(** ** build_black_case_front_template.py: blending *)

Module BlendFacts.
Import Psd Pil PilFacts Build.
Local Open Scope result_scope.

Lemma getpixel_fmap {P Q} (f : P → Q) (im : Image P) x y :
  getpixel (mkImage (size im) (f <$> data im)) x y = f <$> getpixel im x y.
Proof.
  unfold getpixel, im_width, im_height. simpl.
  case_decide; [apply list_lookup_fmap | done].
Qed.

Lemma getpixel_chop `{Bands P} op (im1 im2 : Image P) x y :
  0 ≤ x < Z.min (im_width im1) (im_width im2) →
  0 ≤ y < Z.min (im_height im1) (im_height im2) →
  getpixel (chop op im1 im2) x y =
  Some (map2_bands op (default zero_px (getpixel im1 x y))
                      (default zero_px (getpixel im2 x y))).
Proof.
  intros Hx Hy. rewrite getpixel_inside by done.
  unfold chop, im_width at 1. simpl.
  set (w := Z.min (im_width im1) (im_width im2)) in *.
  set (h := Z.min (im_height im1) (im_height im2)) in *.
  pose proof (index_in_range w h x y Hx Hy) as Hi.
  rewrite list_lookup_fmap, lookup_seqZ_lt by lia. simpl.
  pose proof (coords_index w x y Hx (proj1 Hy)) as Hc. unfold coords in Hc.
  injection Hc as Hc1 Hc2. by rewrite !Z.add_0_l, Hc1, Hc2.
Qed.

(** Splitting an RGB raster and merging it with an alpha band. *)
Lemma merge_split_RGBA (rgb : Image RGB) (a : Image L) :
  size a = size rgb →
  (let '(r, g, b) := split_RGB rgb in merge_RGBA r g b a) =
  Ok (mkImage (size rgb) (zip (data rgb) (data a))).
Proof.
  intros Hs. unfold split_RGB, merge_RGBA. simpl.
  rewrite decide_True by done. by rewrite zip3_split.
Qed.

Lemma chop_same_size `{Bands P} op (im1 im2 : Image P) :
  size im2 = size im1 → size (chop op im1 im2) = size im1.
Proof.
  intros Hs. unfold chop, im_width, im_height. simpl. rewrite Hs, !Z.min_id.
  by destruct (size im1).
Qed.

(** The value [screen_blend] returns on rasters of one size. *)
Lemma screen_blend_same_size (base overlay : Image RGBA) :
  size overlay = size base →
  screen_blend base overlay =
  Ok (mkImage (size base)
        (zip (imap (λ i d,
                 let '(x, y) := coords (im_width base) i in
                 match getpixel (ImageChops_screen (convert_RGB base) (convert_RGB overlay))
                                (x - 0) (y - 0),
                       getpixel (getchannel_A overlay) (x - 0) (y - 0) with
                 | Some s, Some m => map2_bands (BLEND m) d s
                 | _, _ => d
                 end) ((λ p : RGBA, p.1) <$> data base))
             ((λ p : RGBA, p.2) <$> data base))).
Proof.
  intros Hs. unfold screen_blend, Image_composite, paste.
  rewrite decide_True.
  2:{ unfold ImageChops_screen. rewrite chop_same_size; simpl; done. }
  cbn [rbind]. by rewrite merge_split_RGBA.
Qed.

(** C9. Scaling the alpha band by opacity 0 gives a fully transparent
    raster (every alpha 0, size and colour bands kept), and compositing
    that raster onto any base, in particular one of the same size, leaves
    the base as it was in every channel of every pixel. *)
Theorem opacity_zero_leaves_base_unchanged (overlay base : Image RGBA) :
  ∃ scaled,
    apply_alpha_scale overlay 0%Q = Ok scaled ∧
    size scaled = size overlay ∧
    length (data scaled) = length (data overlay) ∧
    Forall (λ p : RGBA, p.2 = 0) (data scaled) ∧
    alpha_composite base scaled (0, 0) = base.
Proof.
  exists (mkImage (size overlay) ((λ p : RGBA, (p.1, 0)) <$> data overlay)).
  split; [|split; [done|split; [simpl; by rewrite length_fmap|split]]].
  - unfold apply_alpha_scale. simpl Qle_bool. cbv iota.
    unfold putalpha, point, getchannel_A. simpl.
    rewrite decide_True by done. do 2 f_equal.
    induction (data overlay) as [|p l IH]; [done|].
    simpl. f_equal; [|exact IH]. unfold int_scaled. simpl.
    by rewrite Z.mul_0_r.
  - apply Forall_fmap, Forall_forall. by intros p _.
  - unfold alpha_composite. rewrite <- (image_eta base) at 3. f_equal.
    apply imap_id_on. intros i d _.
    destruct (coords (im_width base) i) as [x y].
    destruct (getpixel _ _ _) as [[[[r g] b] a]|] eqn:E; [|done].
    apply getpixel_elem_of in E. simpl in E.
    apply list_elem_of_fmap in E as (q & Heq & _).
    injection Heq as _ ->.
    apply alpha_composite_px_transparent_src.
Qed.

(** C8. Screen-blending a base raster with a fully transparent overlay of
    the same size returns the base itself. *)
Theorem screen_blend_transparent_overlay (base overlay : Image RGBA) :
  size overlay = size base →
  Forall rgba_bytes (data base) →
  Forall (λ p : RGBA, p.2 = 0) (data overlay) →
  screen_blend base overlay = Ok base.
Proof.
  intros Hs Hbytes Halpha. rewrite screen_blend_same_size by done.
  rewrite imap_id_on.
  - by rewrite zip_rgb_alpha, image_eta.
  - intros i d Hd.
    destruct (coords (im_width base) i) as [x y].
    destruct (getpixel (ImageChops_screen _ _) _ _) as [s|]; [|done].
    destruct (getpixel (getchannel_A overlay) _ _) as [m|] eqn:Em; [|done].
    apply getpixel_elem_of in Em. simpl in Em.
    apply list_elem_of_fmap in Em as (q & -> & Hq).
    rewrite Forall_forall in Halpha. rewrite (Halpha q Hq).
    rewrite list_lookup_fmap in Hd.
    destruct (data base !! i) as [p|] eqn:Ep; [|done].
    injection Hd as <-.
    rewrite Forall_forall in Hbytes.
    destruct (Hbytes p) as (Hr & Hg & Hb & _).
    { apply list_elem_of_lookup. eauto. }
    destruct p as [[[r g] b] a], s as [[sr sg] sb]. simpl in *.
    by rewrite !BLEND_mask_0.
Qed.

(** C3. On rasters of one size [screen_blend] returns a raster of that
    size whose colour bands are, per pixel, the screened value
    [255 - (255-a)(255-b)/255] of base and overlay blended over the base
    value with the overlay's alpha as mask (mask 0 keeps the base value,
    mask 255 gives the screened value), and whose alpha band is the
    base's alpha band. *)
Theorem screen_blend_pixels (base overlay : Image RGBA) :
  size overlay = size base → well_sized base → well_sized overlay →
  ∃ out,
    screen_blend base overlay = Ok out ∧
    size out = size base ∧
    getchannel_A out = getchannel_A base ∧
    (∀ x y, 0 ≤ x < im_width base → 0 ≤ y < im_height base →
       ∃ br bg bb ba vr vg vb va,
         getpixel base x y = Some (br, bg, bb, ba) ∧
         getpixel overlay x y = Some (vr, vg, vb, va) ∧
         getpixel out x y =
           Some (BLEND va br (screen_op br vr),
                 BLEND va bg (screen_op bg vg),
                 BLEND va bb (screen_op bb vb),
                 ba)) ∧
    (∀ a b, is_byte a → is_byte b →
       screen_op a b = 255 - ((255 - a) * (255 - b)) / 255) ∧
    (∀ m a s, is_byte m → is_byte a → is_byte s →
       BLEND m a s = (a * (255 - m) + s * m + 127) / 255).
Proof.
  intros Hs Hb Ho. rewrite screen_blend_same_size by done.
  eexists. split; [reflexivity|]. split; [done|]. split; [|split; [|split]].
  - unfold getchannel_A. simpl. f_equal.
    apply (snd_zip (B := Z)). by rewrite length_imap, !length_fmap.
  - intros x y Hx Hy.
    assert (im_width overlay = im_width base) as Hw
      by (unfold im_width; by rewrite Hs).
    assert (im_height overlay = im_height base) as Hh
      by (unfold im_height; by rewrite Hs).
    destruct (getpixel_is_Some base x y Hb Hx Hy) as [[[[br bg] bb] ba] Eb].
    destruct (getpixel_is_Some overlay x y Ho) as [[[[vr vg] vb] va] Eo];
      [lia | lia |].
    exists br, bg, bb, ba, vr, vg, vb, va.
    split; [done|]. split; [done|].
    rewrite getpixel_inside by done. simpl data.
    unfold im_width at 1. simpl size.
    rewrite lookup_zip_with, list_lookup_imap, !list_lookup_fmap.
    pose proof Eb as Eb'. rewrite getpixel_inside in Eb' by done.
    unfold im_width in Eb' at 1. rewrite Eb'. simpl.
    fold (im_width base).
    destruct (column_row_of_index (im_width base) x y Hx (proj1 Hy)) as [-> ->].
    rewrite !Z.sub_0_r.
    unfold ImageChops_screen. rewrite getpixel_chop.
    2,3: unfold convert_RGB, im_width, im_height in *; simpl; rewrite Hs; lia.
    unfold convert_RGB, getchannel_A. rewrite !getpixel_fmap, Eb, Eo.
    reflexivity.
  - intros a b Ha Hb'. by destruct (screen_op_bytes a b Ha Hb') as [Hf Hr].
  - apply BLEND_round.
Qed.

End BlendFacts.

(** ** build_black_case_front_template.py: the canvas rasteriser *)

Module CanvasFacts.
Import Psd Pil PilFacts Build.

(** C4. [to_canvas] returns a raster of the document's width and height
    whatever the layer's box is; each pixel is the layer's composite,
    placed with its origin at [(x1, y1)], alpha-composited over a
    transparent pixel, and transparent where the composite does not
    reach. *)
Theorem to_canvas_document_sized
    (layer_composite : Layer → Image RGBA) (psd : Document) (layer : Layer)
    (x1 y1 x2 y2 : Z) :
  0 ≤ width psd → 0 ≤ height psd →
  layer_bbox layer = (x1, y1, x2, y2) →
  ∃ canvas,
    to_canvas layer_composite psd layer = Ok canvas ∧
    size canvas = (width psd, height psd) ∧
    well_sized canvas ∧
    (∀ x y, 0 ≤ x < width psd → 0 ≤ y < height psd →
       getpixel canvas x y =
       Some (match getpixel (layer_composite layer) (x - x1) (y - y1) with
             | Some s => alpha_composite_px (0, 0, 0, 0) s
             | None => (0, 0, 0, 0)
             end)) ∧
    (Forall rgba_bytes (data (layer_composite layer)) →
     ∀ x y, 0 ≤ x < width psd → 0 ≤ y < height psd →
       getpixel canvas x y =
       Some (match getpixel (layer_composite layer) (x - x1) (y - y1) with
             | Some s => if decide (s.2 = 0) then (0, 0, 0, 0) else s
             | None => (0, 0, 0, 0)
             end)).
Proof.
  intros Hw Hh Hbox. unfold to_canvas, Image_new. simpl.
  rewrite decide_True by done. simpl. rewrite Hbox.
  eexists. split; [reflexivity|]. split; [done|].
  assert (∀ x y, 0 ≤ x < width psd → 0 ≤ y < height psd →
    getpixel
      (alpha_composite
         (mkImage (width psd, height psd)
            (replicate (Z.to_nat (width psd * height psd)) ((0, 0, 0, 0) : RGBA)))
         (layer_composite layer) (x1, y1)) x y =
    Some (match getpixel (layer_composite layer) (x - x1) (y - y1) with
          | Some s => alpha_composite_px (0, 0, 0, 0) s
          | None => (0, 0, 0, 0)
          end)) as Hpx.
  { intros x y Hx Hy. unfold alpha_composite. simpl size.
    rewrite getpixel_imap by (simpl; lia).
    rewrite (getpixel_inside (mkImage (width psd, height psd) _))
      by (unfold im_width, im_height; simpl; lia).
    unfold im_width. simpl.
    pose proof (index_in_range _ _ _ _ Hx Hy).
    rewrite lookup_replicate_2 by lia. simpl.
    by destruct (column_row_of_index (width psd) x y Hx (proj1 Hy)) as [-> ->]. }
  split; [|split].
  - unfold well_sized, im_width, im_height. simpl.
    by rewrite length_imap, length_replicate.
  - exact Hpx.
  - intros Hbytes x y Hx Hy. rewrite Hpx by done. f_equal.
    destruct (getpixel (layer_composite layer) _ _) as [s|] eqn:Es; [|done].
    apply alpha_composite_px_over_transparent.
    rewrite Forall_forall in Hbytes. apply Hbytes.
    by eapply getpixel_elem_of.
Qed.

End CanvasFacts.

(** ** prototype_black_case_front.py: pasting the poster *)

Module PasteFacts.
Import Psd Pil PilFacts Prototype.


End PasteFacts.


(** ** Runs: reading a successful run backwards *)

Module RunFacts.
Import Script.

Lemma bind_ok_inv {J A B} (c : Run J A) (k : A → Run J B) fs fs' b :
  bind c k fs = (fs', Ok b) →
  ∃ a fs1, c fs = (fs1, Ok a) ∧ k a fs1 = (fs', Ok b).
Proof.
  unfold bind. destruct (c fs) as [fs1 [a|e]]; [eauto|discriminate].
Qed.

Lemma bind_raise {J A B} (c : Run J A) (k : A → Run J B) fs fs1 e :
  c fs = (fs1, Raise e) → bind c k fs = (fs1, Raise e).
Proof. unfold bind. by intros ->. Qed.

Lemma bind_ok {J A B} (c : Run J A) (k : A → Run J B) fs fs1 a :
  c fs = (fs1, Ok a) → bind c k fs = k a fs1.
Proof. unfold bind. by intros ->. Qed.

Lemma lift_ok_inv {J A} (r : result A) (fs fs' : Files J) a :
  lift r fs = (fs', Ok a) → r = Ok a ∧ fs' = fs.
Proof. unfold lift. by intros [= -> ->]. Qed.

Lemma write_inv {J} file (c : Content J) (fs fs' : Files J) u :
  write file c fs = (fs', Ok u) → fs' = fs ++ [(file, c)].
Proof. unfold write. by intros [= <-]. Qed.

Lemma rbind_ok_inv {A B} (r : result A) (k : A → result B) b :
  rbind r k = Ok b → ∃ a, r = Ok a ∧ k a = Ok b.
Proof. destruct r; simpl; [eauto|discriminate]. Qed.

End RunFacts.

(** ** build_black_case_front_template.py: locating layers, and [main] *)

Module BuildFacts.
Import Psd Pil PilFacts Build RunFacts.
Local Open Scope result_scope.

(** The path map holds exactly the paths the traversal yields. *)
Lemma foldl_insert_is_Some (l : list (string * Layer)) (m : gmap string Layer) p :
  is_Some (foldl (λ m pl, <[pl.1 := pl.2]> m) m l !! p) ↔
  is_Some (m !! p) ∨ p ∈ l.*1.
Proof.
  revert m. induction l as [|[q layer] l IH]; intros m; simpl.
  - rewrite elem_of_nil. tauto.
  - rewrite IH, elem_of_cons. simpl.
    destruct (decide (q = p)) as [->|Hne].
    + rewrite lookup_insert_eq. split; [|intros _; left]; eauto.
    + rewrite lookup_insert_ne by done. split; [tauto|].
      intros [?|[?|?]]; [tauto|congruence|tauto].
Qed.

Lemma by_path_is_Some (psd : Document) (path : string) :
  is_Some (by_path_of psd !! path) ↔ path ∈ (iter_layers (layers psd) "").*1.
Proof.
  unfold by_path_of. rewrite foldl_insert_is_Some, lookup_empty.
  split; [intros [[? [=]]|?]; done | by right].
Qed.

Lemma resolve_ok by_path (table : list (string * string)) (acc : gmap string Layer) :
  Forall (present by_path) table →
  ∃ resolved,
    resolve by_path table acc = Ok resolved ∧
    (∀ alias, alias ∈ table.*1 →
       ∃ path layer, (alias, path) ∈ table ∧
                     by_path !! path = Some layer ∧ resolved !! alias = Some layer) ∧
    (∀ alias, alias ∉ table.*1 → resolved !! alias = acc !! alias).
Proof.
  revert acc. induction table as [|[a p] table IH]; intros acc Hall.
  - exists acc. split; [done|]. split; [|done]. intros alias Hin. by inversion Hin.
  - inversion Hall as [|? ? [layer Hl] Hrest]; subst. simpl in Hl.
    destruct (IH (<[a := layer]> acc) Hrest) as (resolved & Hres & Hin & Hout).
    exists resolved. simpl. rewrite Hl. split; [done|]. split.
    + intros alias Halias.
      destruct (decide (alias ∈ table.*1)) as [Ht|Ht].
      * destruct (Hin alias Ht) as (path & l' & ? & ? & ?).
        exists path, l'. split; [by right|done].
      * apply elem_of_cons in Halias as [->|?]; [|done].
        exists p, layer. split; [by left|]. split; [done|].
        by rewrite (Hout a Ht), lookup_insert_eq.
    + intros alias Halias. apply not_elem_of_cons in Halias as [Hne Ht].
      rewrite (Hout alias Ht). by rewrite lookup_insert_ne.
Qed.

Lemma resolve_fail by_path pre alias path post (acc : gmap string Layer) :
  Forall (present by_path) pre → by_path !! path = None →
  resolve by_path (pre ++ (alias, path) :: post) acc = Raise (missing_message path).
Proof.
  revert acc. induction pre as [|[a p] pre IH]; intros acc Hall Hnone; simpl.
  - by rewrite Hnone.
  - inversion Hall as [|? ? [layer Hl] Hrest]; subst. simpl in Hl.
    rewrite Hl. by apply IH.
Qed.

Lemma first_missing by_path (table : list (string * string)) :
  Forall (present by_path) table ∨
  ∃ pre alias path post,
    table = pre ++ (alias, path) :: post ∧
    Forall (present by_path) pre ∧ by_path !! path = None.
Proof.
  induction table as [|[a p] table IH]; [by left|].
  destruct (by_path !! p) as [layer|] eqn:Hp.
  - destruct IH as [Hall|(pre & alias & path & post & -> & Hpre & Hnone)].
    + left. constructor; [|done]. unfold present. simpl. by rewrite Hp.
    + right. exists ((a, p) :: pre), alias, path, post.
      split; [done|]. split; [|done].
      constructor; [|done]. unfold present. simpl. by rewrite Hp.
  - right. exists [], a, p, table. by repeat split.
Qed.

(** A failed lookup stops [main] with the files as they were. *)
Lemma main_stops_on_missing_layer layer_composite psb_path psb_name psd fs e :
  find_layers psd = Raise e →
  main layer_composite psb_path psb_name true psd fs = (fs, Raise e).
Proof.
  intros Hf. unfold main. simpl negb. cbv iota.
  apply bind_raise. unfold Script.lift. by rewrite Hf.
Qed.

(** C2. For every document and alias table, [find_layers] either
    resolves every alias to the layer stored under its path, or stops at
    the first alias whose path is not in the path map with an error that
    carries that path; when it fails, [main] raises the same error with
    no file written. *)
Theorem find_layers_resolves_or_reports (table : list (string * string)) (psd : Document) :
  ((Forall (present (by_path_of psd)) table ∧
    ∃ resolved,
      find_layers_with table psd = Ok resolved ∧
      (∀ alias, alias ∈ table.*1 →
         ∃ path layer, (alias, path) ∈ table ∧
                       by_path_of psd !! path = Some layer ∧
                       resolved !! alias = Some layer))
   ∨
   (∃ pre alias path post,
      table = pre ++ (alias, path) :: post ∧
      Forall (present (by_path_of psd)) pre ∧
      by_path_of psd !! path = None ∧
      (path ∉ (iter_layers (layers psd) "").*1) ∧
      find_layers_with table psd =
        Raise (RuntimeError ("Could not find required layer path: " +:+ path))))
  ∧
  (∀ layer_composite psb_path psb_name e,
     find_layers psd = Raise e →
     main layer_composite psb_path psb_name true psd [] = ([], Raise e)).
Proof.
  split.
  - destruct (first_missing (by_path_of psd) table)
      as [Hall|(pre & alias & path & post & -> & Hpre & Hnone)].
    + left. split; [done|].
      destruct (resolve_ok (by_path_of psd) table ∅ Hall) as (resolved & Hres & Hin & _).
      exists resolved. split; [done|]. exact Hin.
    + right. exists pre, alias, path, post.
      split; [done|]. split; [done|]. split; [done|]. split.
      * rewrite <- by_path_is_Some, Hnone. by intros [? [=]].
      * by apply resolve_fail.
  - intros. by apply main_stops_on_missing_layer.
Qed.

Lemma find_layers_ok_inv (table : list (string * string)) (psd : Document) resolved :
  find_layers_with table psd = Ok resolved →
  ∀ alias, alias ∈ table.*1 →
    ∃ path layer, (alias, path) ∈ table ∧
                  by_path_of psd !! path = Some layer ∧
                  resolved !! alias = Some layer.
Proof.
  intros Hok.
  destruct (first_missing (by_path_of psd) table)
    as [Hall|(pre & alias & path & post & -> & Hpre & Hnone)].
  - destruct (resolve_ok (by_path_of psd) table ∅ Hall) as (resolved' & Hres & Hin & _).
    unfold find_layers_with in Hok. rewrite Hres in Hok. by injection Hok as <-.
  - unfold find_layers_with in Hok. by rewrite resolve_fail in Hok.
Qed.

Lemma design_entry path :
  ("design", path) ∈ LAYER_PATHS →
  path = "Black VHS Case/**Your Design Here [Double-Click]** (Sleeve Insert)".
Proof.
  unfold LAYER_PATHS. rewrite !elem_of_cons, elem_of_nil.
  intros [H|[H|[H|[H|[H|[]]]]]]; by injection H.
Qed.

Ltac run_step H :=
  let a := fresh "v" in
  let fs1 := fresh "fs" in
  let Hc := fresh "Hc" in
  apply bind_ok_inv in H as (a & fs1 & Hc & H);
  first [ apply write_inv in Hc as -> | apply lift_ok_inv in Hc as [Hc ->] ].

(** C7. In every run of [main] that succeeds, the [poster] rectangle of
    the metadata written to [front-metadata.json] is the box
    [(x1, y1, x2, y2)] of the layer found under the design path, as
    [left = x1], [top = y1], [width = x2 - x1], [height = y2 - y1]. *)
Theorem metadata_poster_is_design_bbox
    layer_composite psb_path psb_name psb_exists psd files code :
  main layer_composite psb_path psb_name psb_exists psd [] = (files, Ok code) →
  ∃ design_layer x1 y1 x2 y2 metadata,
    by_path_of psd !!
      "Black VHS Case/**Your Design Here [Double-Click]** (Sleeve Insert)"
      = Some design_layer ∧
    layer_bbox design_layer = (x1, y1, x2, y2) ∧
    last files = Some ("front-metadata.json", Script.JSON metadata) ∧
    poster metadata =
      {| left := x1; top := y1; rect_width := x2 - x1; rect_height := y2 - y1 |} ∧
    Script.names files =
      ["front-shadow-underlay.png"; "front-case-underlay.png";
       "front-placeholder-design.png"; "front-texture-plastic.png";
       "front-texture-scratches.png"; "front-placeholder-cover.png";
       "front-placeholder-cover.webp"; "front-metadata.json"] ∧
    code = 0.
Proof.
  intros H. unfold main in H.
  destruct psb_exists; cbn [negb] in H; [|discriminate].
  run_step H. rename v into layers, Hc into Hfind.
  do 5 run_step H. do 5 run_step H. do 3 run_step H.
  run_step H.
  match goal with
  | Hc : item layers "design" = Ok ?l |- _ => rename l into design_layer, Hc into Hitem
  end.
  destruct (layer_bbox design_layer) as [[[x1 y1] x2] y2] eqn:Hbox.
  run_step H. injection H as <- <-.
  unfold item in Hitem.
  destruct (layers !! "design") as [l|] eqn:Hl; [|discriminate].
  injection Hitem as ->.
  destruct (find_layers_ok_inv _ _ _ Hfind "design") as (path & l & Hin & Hpath & Hres).
  { unfold LAYER_PATHS. simpl.
    repeat (first [apply list_elem_of_here | apply list_elem_of_further]). }
  apply design_entry in Hin as ->.
  rewrite Hl in Hres. injection Hres as <-.
  eexists design_layer, x1, y1, x2, y2, _.
  split; [done|]. split; [done|]. split; [reflexivity|]. by simpl.
Qed.

(** *** A run with the file there and every path present succeeds *)

Lemma to_canvas_ok layer_composite psd layer :
  0 ≤ width psd → 0 ≤ height psd →
  ∃ canvas, to_canvas layer_composite psd layer = Ok canvas ∧
            size canvas = (width psd, height psd).
Proof.
  intros Hw Hh. unfold to_canvas, Image_new. simpl.
  rewrite decide_True by done. simpl.
  destruct (layer_bbox layer) as [[[x1 y1] x2] y2]. eauto.
Qed.

(** The scale the script uses. *)
Lemma apply_alpha_scale_half image :
  ∃ scaled, apply_alpha_scale image (1 # 2) = Ok scaled ∧ size scaled = size image.
Proof.
  unfold apply_alpha_scale. simpl Qle_bool. cbv iota.
  unfold putalpha. simpl. rewrite decide_True by done. eauto.
Qed.

Lemma compose_placeholder_cover_ok shadow case design plastic scratches :
  0 ≤ (size case).1 → 0 ≤ (size case).2 → size plastic = size case →
  ∃ cover, compose_placeholder_cover shadow case design plastic scratches = Ok cover.
Proof.
  intros Hw Hh Hp. unfold compose_placeholder_cover, Image_new.
  rewrite decide_True by done. cbn [rbind].
  destruct (apply_alpha_scale_half shadow) as (sh & -> & _). cbn [rbind].
  rewrite BlendFacts.screen_blend_same_size by done. cbn [rbind].
  destruct (apply_alpha_scale_half scratches) as (sc & -> & _). cbn [rbind].
  eauto.
Qed.

Lemma main_succeeds layer_composite psb_path psb_name psd :
  0 ≤ width psd → 0 ≤ height psd →
  Forall (present (by_path_of psd)) LAYER_PATHS →
  ∃ files, main layer_composite psb_path psb_name true psd [] = (files, Ok 0).
Proof.
  intros Hw Hh Hall.
  destruct (resolve_ok (by_path_of psd) LAYER_PATHS ∅ Hall) as (layers & Hres & Hin & _).
  assert (∀ alias, alias ∈ LAYER_PATHS.*1 →
            ∃ layer canvas,
              item layers alias = Ok layer ∧
              to_canvas layer_composite psd layer = Ok canvas ∧
              size canvas = (width psd, height psd)) as Hitem.
  { intros alias Ha. destruct (Hin alias Ha) as (path & layer & _ & _ & Hl).
    destruct (to_canvas_ok layer_composite psd layer Hw Hh) as (canvas & Hc & Hs).
    exists layer, canvas. unfold item. by rewrite Hl. }
  destruct (Hitem "shadow") as (l1 & shadow & Hi1 & Hc1 & Hs1);
    [unfold LAYER_PATHS; simpl; repeat (first [apply list_elem_of_here | apply list_elem_of_further])|].
  destruct (Hitem "case") as (l2 & case & Hi2 & Hc2 & Hs2);
    [unfold LAYER_PATHS; simpl; repeat (first [apply list_elem_of_here | apply list_elem_of_further])|].
  destruct (Hitem "design") as (l3 & design & Hi3 & Hc3 & Hs3);
    [unfold LAYER_PATHS; simpl; repeat (first [apply list_elem_of_here | apply list_elem_of_further])|].
  destruct (Hitem "plastic") as (l4 & plastic & Hi4 & Hc4 & Hs4);
    [unfold LAYER_PATHS; simpl; repeat (first [apply list_elem_of_here | apply list_elem_of_further])|].
  destruct (Hitem "scratches") as (l5 & scratches & Hi5 & Hc5 & Hs5);
    [unfold LAYER_PATHS; simpl; repeat (first [apply list_elem_of_here | apply list_elem_of_further])|].
  destruct (compose_placeholder_cover_ok shadow case design plastic scratches)
    as (cover & Hcover); [by rewrite Hs2 | by rewrite Hs2 | congruence |].
  unfold main, find_layers, find_layers_with. cbn [negb].
  unfold Script.bind, Script.lift, Script.write, Script.ret.
  rewrite Hres, Hi1, Hi2, Hi3, Hi4, Hi5. cbn [rbind].
  rewrite Hc1, Hc2, Hc3, Hc4, Hc5, Hcover.
  destruct (layer_bbox l3) as [[[x1 y1] x2] y2]. eauto.
Qed.

End BuildFacts.

(** ** prototype_black_case_front.py: missing layers *)

Module PipelineFacts.
Import Psd Pil Prototype RunFacts.

Lemma hide_layer_name shown l : layer_name (hide_layer shown l) = layer_name l.
Proof.
  destruct l as [a|a cs]; unfold layer_name; simpl;
    unfold hide_attrs; by destruct (Str.contains _ _).
Qed.

(** The traversal of the hidden tree yields, in the same order, the
    layers of the tree as the loop leaves them. *)
Lemma iter_layer_hide l : ∀ shown,
  Forall2 hidden_of (iter_layer (hide_layer shown l)) (iter_layer l).
Proof.
  induction l as [a|a cs IH] using Layer_forall_ind; intros shown.
  - constructor; [by exists shown | constructor].
  - cbn [hide_layer iter_layer]. constructor; [by exists shown|].
    generalize (visible (hide_attrs a) && shown). intros shown'.
    induction IH as [|c cs Hc _ IHcs]; [constructor|].
    simpl. apply Forall2_app; [apply Hc | apply IHcs].
Qed.

Lemma iter_layers_hide ls shown :
  Forall2 hidden_of (iter_layers (map (hide_layer shown) ls)) (iter_layers ls).
Proof.
  unfold iter_layers. induction ls as [|l ls IH]; [constructor|].
  simpl. apply Forall2_app; [apply iter_layer_hide | exact IH].
Qed.

Lemma find_Forall2 {A B} (R : A → B → Prop) (p : A → bool) (q : B → bool) xs ys :
  Forall2 R xs ys → (∀ x y, R x y → p x = q y) →
  option_Forall2 R (List.find p xs) (List.find q ys).
Proof.
  intros Hall Hpq. induction Hall as [|x y xs ys Hxy _ IH]; [constructor|].
  simpl. rewrite (Hpq x y Hxy). destruct (q y); [by constructor | exact IH].
Qed.

(** Hiding changes no name, so [find_layer] finds the same layer, in the
    state the loop left it in, or finds none in both documents. *)
Lemma find_layer_hide psd exact_name :
  option_Forall2 hidden_of (find_layer (hide_design psd) exact_name)
                           (find_layer psd exact_name).
Proof.
  unfold find_layer, hide_design. simpl.
  apply find_Forall2; [apply iter_layers_hide|].
  intros l' l [shown ->]. by rewrite hide_layer_name.
Qed.

Lemma find_layer_hide_None psd exact_name :
  find_layer psd exact_name = None →
  find_layer (hide_design psd) exact_name = None.
Proof.
  intros Hn. pose proof (find_layer_hide psd exact_name) as H.
  rewrite Hn in H. by inversion H.
Qed.

Lemma find_layer_hide_Some psd exact_name l :
  find_layer psd exact_name = Some l →
  ∃ shown, find_layer (hide_design psd) exact_name = Some (hide_layer shown l).
Proof.
  intros Hs. pose proof (find_layer_hide psd exact_name) as H.
  rewrite Hs in H. inversion H as [l' ? [shown ->]|]. by exists shown.
Qed.

Section Pipeline.
Variable psd_composite : Document → Image RGBA.
Variable layer_composite : Layer → Image RGBA.
Variable load_poster_image : string → result (Image RGBA).
Variable resample_LANCZOS : Image RGBA → Z * Z → Image RGBA.
Variable Image_blend : Image RGB → Image RGB → Q → result (Image RGB).

(** C1, as the code has it.  A missing design layer stops the run with
    its error before any file is written.  A missing background layer
    (the design layer being there) stops the run with its error after
    [front_full_no_design.png], and only that file, has been written. *)
Theorem missing_layer_aborts (poster_arg : string) (psd : Document)
    (fs : Script.Files unit) :
  (find_layer psd DESIGN_LAYER = None →
   main psd_composite layer_composite load_poster_image resample_LANCZOS Image_blend
        poster_arg psd fs =
     (fs, Raise (SystemExit "Could not find FRONT smart-object design layer."))) ∧
  (is_Some (find_layer psd DESIGN_LAYER) →
   find_layer psd BACKGROUND_LAYER = None →
   main psd_composite layer_composite load_poster_image resample_LANCZOS Image_blend
        poster_arg psd fs =
     (fs ++ [("front_full_no_design.png",
              Script.PNG (psd_composite (hide_design psd)))],
      Raise (SystemExit "Could not find background layer."))).
Proof.
  split.
  - intros Hd. unfold main. by rewrite Hd.
  - intros [design Hd] Hb. unfold main. rewrite Hd.
    rewrite (find_layer_hide_None psd BACKGROUND_LAYER Hb). reflexivity.
Qed.

End Pipeline.

End PipelineFacts.

(** ** inspect_black_case_psb.py: classification *)

Module InspectFacts.
Import Psd Inspect.

Lemma append_associative (s t u : string) : (s +:+ t) +:+ u = s +:+ (t +:+ u).
Proof.
  induction s as [|c s IH]; [done|].
  change (String c ((s +:+ t) +:+ u) = String c (s +:+ (t +:+ u))).
  by rewrite IH.
Qed.

Lemma lower_append s t : Str.lower (s +:+ t) = Str.lower s +:+ Str.lower t.
Proof.
  induction s as [|c s IH]; [done|].
  change (String (Str.ascii_lower c) (Str.lower (s +:+ t)) =
          String (Str.ascii_lower c) (Str.lower s +:+ Str.lower t)).
  by rewrite IH.
Qed.

(** ASCII lowering is one function with the property asked of
    [str.lower]. *)
Lemma lower_lowers_ascii : lowers_ascii Str.lower.
Proof.
  intros pre mid post _. exists (Str.lower pre), (Str.lower post).
  by rewrite !lower_append.
Qed.

Lemma starts_with_spec s t :
  Str.starts_with s t = true ↔ ∃ post, s = t +:+ post.
Proof.
  revert s. induction t as [|b t IH]; intros s; simpl.
  - split; [intros _; by exists s | intros _; by destruct s].
  - destruct s as [|a s]; simpl.
    + split; [done | by intros [? ?]].
    + rewrite andb_true_iff, bool_decide_eq_true, IH. split.
      * intros [-> [post ->]]. by exists post.
      * intros [post [= -> ->]]. eauto.
Qed.

(** [Str.contains s t] is Python's [t in s]. *)
Lemma contains_spec s t :
  Str.contains s t = true ↔ ∃ pre post, s = pre +:+ t +:+ post.
Proof.
  induction s as [|a s IH]; cbn [Str.contains].
  - rewrite orb_false_r, starts_with_spec. split.
    + intros [post ->]. by exists "", post.
    + intros (pre & post & H). destruct pre; [by exists post|discriminate].
  - rewrite orb_true_iff, starts_with_spec, IH. split.
    + intros [[post ->]|(pre & post & ->)].
      * by exists "", post.
      * by exists (String a pre), post.
    + intros (pre & post & H). destruct pre as [|c pre]; simpl in H.
      * left. by exists post.
      * right. injection H as -> ->. by exists pre, post.
Qed.

Lemma has_key_token_spec lower :
  has_key_token lower = true ↔
  ∃ token, token ∈ KEY_TOKENS ∧ ∃ pre post, lower = pre +:+ token +:+ post.
Proof.
  unfold has_key_token. rewrite existsb_exists. split.
  - intros (token & Hin & Hc). exists token.
    split; [by apply list_elem_of_In | by apply contains_spec].
  - intros (token & Hin & Hc). exists token.
    split; [by apply list_elem_of_In | by apply contains_spec].
Qed.

Lemma extend_nil entry : extend entry [] [] = entry.
Proof. destruct entry. unfold extend. simpl. by rewrite !app_nil_r. Qed.

Lemma extend_extend entry s1 k1 s2 k2 :
  extend (extend entry s1 k1) s2 k2 = extend entry (s1 ++ s2) (k1 ++ k2).
Proof. unfold extend. simpl. by rewrite !app_assoc. Qed.

Lemma filter_flat_map {A B} (p : B → bool) (f : A → list B) (l : list A) :
  List.filter p (flat_map f l) = flat_map (λ x, List.filter p (f x)) l.
Proof.
  induction l as [|x l IH]; [done|]. simpl. by rewrite List.filter_app, IH.
Qed.

Lemma make_info_fields parent_visible layer path :
  info_name (make_info parent_visible layer path) = layer_name layer ∧
  info_kind (make_info parent_visible layer path) = layer_kind layer.
Proof. unfold make_info. by destruct (layer_bbox layer) as [[[? ?] ?] ?]. Qed.

Section Lowering.
Variable str_lower : string → string.

(** The two appends at the head of [walk]. *)
Lemma classify_extends info entry lname :
  info_name info = lname →
  (let entry :=
     if decide (info_kind info = Some "smartobject")
     then append_smartObject info entry else entry in
   if has_key_token (str_lower lname) then append_keyLayer info entry else entry) =
  extend entry
    (if is_smart_object info then [info] else [])
    (if is_key_layer str_lower info then [info] else []).
Proof.
  intros <-. unfold is_smart_object, is_key_layer. cbv zeta.
  destruct (decide _) as [Hk|Hk];
    [rewrite bool_decide_eq_true_2 by done | rewrite bool_decide_eq_false_2 by done];
    destruct (has_key_token _); destruct entry;
    unfold extend, append_smartObject, append_keyLayer; simpl;
    by rewrite ?app_nil_r.
Qed.

(** [walk] appends, in visiting order, the smart-object infos and the
    key-layer infos of the layers it visits. *)
Lemma walk_extends layer : ∀ parent_visible path_parts entry,
  walk str_lower parent_visible layer path_parts entry =
  extend entry
    (List.filter is_smart_object (visits parent_visible layer path_parts))
    (List.filter (is_key_layer str_lower) (visits parent_visible layer path_parts)).
Proof.
  induction layer as [a|a cs IH] using Layer_forall_ind;
    intros parent_visible path_parts entry.
  - cbn [walk visits List.filter].
    rewrite classify_extends by apply make_info_fields.
    by destruct (is_smart_object _), (is_key_layer str_lower _).
  - cbn [walk visits List.filter].
    set (path := path_parts ++ [layer_name (Group a cs)]).
    set (info := make_info parent_visible (Group a cs) path).
    rewrite classify_extends by apply make_info_fields.
    assert (∀ e, fold_left (λ entry child, walk str_lower (info_visible info) child path entry) cs e =
                 extend e
                   (List.filter is_smart_object
                      (flat_map (λ child, visits (info_visible info) child path) cs))
                   (List.filter (is_key_layer str_lower)
                      (flat_map (λ child, visits (info_visible info) child path) cs)))
      as Hfold.
    { induction IH as [|c cs Hc _ IHcs]; intros e; simpl.
      - by rewrite extend_nil.
      - by rewrite IHcs, Hc, extend_extend, !List.filter_app. }
    rewrite Hfold, extend_extend.
    by destruct (is_smart_object info), (is_key_layer str_lower info).
Qed.

Lemma inventory_entry_lists file_path file_name psd :
  smartObjects (inventory_entry str_lower file_path file_name psd) =
    List.filter is_smart_object (document_visits psd) ∧
  keyLayers (inventory_entry str_lower file_path file_name psd) =
    List.filter (is_key_layer str_lower) (document_visits psd).
Proof.
  unfold inventory_entry, document_visits.
  set (e0 := mkEntry _ _ _ _ [] []).
  assert (∀ ls e, fold_left (λ entry root_layer, walk str_lower true root_layer [] entry) ls e =
                  extend e
                    (List.filter is_smart_object
                       (flat_map (λ root_layer, visits true root_layer []) ls))
                    (List.filter (is_key_layer str_lower)
                       (flat_map (λ root_layer, visits true root_layer []) ls))) as Hfold.
  { induction ls as [|l ls IH]; intros e; simpl.
    - by rewrite extend_nil.
    - by rewrite IH, walk_extends, extend_extend, !List.filter_app. }
  rewrite Hfold. by simpl.
Qed.

(** The infos visited are those of every layer, in preorder. *)
Lemma visits_cover_layers psd :
  info_name <$> document_visits psd = layer_name <$> iter_layers (layers psd) ∧
  info_kind <$> document_visits psd = layer_kind <$> iter_layers (layers psd).
Proof.
  assert (∀ l pv parts,
    info_name <$> visits pv l parts = layer_name <$> iter_layer l ∧
    info_kind <$> visits pv l parts = layer_kind <$> iter_layer l) as Hl.
  { induction l as [a|a cs IH] using Layer_forall_ind; intros pv parts.
    - cbn [visits iter_layer]. rewrite !fmap_cons, !fmap_nil.
      by destruct (make_info_fields pv (Leaf a) (parts ++ [layer_name (Leaf a)]))
        as [-> ->].
    - cbn [visits iter_layer]. rewrite !fmap_cons.
      set (path := parts ++ [layer_name (Group a cs)]).
      set (info := make_info pv (Group a cs) path).
      assert (info_name info = layer_name (Group a cs) ∧
              info_kind info = layer_kind (Group a cs)) as [-> ->].
      { apply make_info_fields. }
      assert (info_name <$> flat_map (λ child, visits (info_visible info) child path) cs
                = layer_name <$> flat_map iter_layer cs ∧
              info_kind <$> flat_map (λ child, visits (info_visible info) child path) cs
                = layer_kind <$> flat_map iter_layer cs) as [-> ->]; [|done].
      generalize (info_visible info). intros v. clear info. clearbody path.
      induction IH as [|c cs Hc _ IHcs]; [done|].
      simpl. rewrite !fmap_app.
      destruct (Hc v path) as [-> ->]. by destruct IHcs as [-> ->]. }
  unfold document_visits, iter_layers.
  induction (layers psd) as [|l ls [IH1 IH2]]; [done|].
  simpl. rewrite !fmap_app. destruct (Hl l true []) as [-> ->].
  by rewrite IH1, IH2.
Qed.

(** C6. The key-layer list holds exactly those visited layers whose
    lowercased name contains one of the eight keywords, the smart-object
    list exactly those whose kind is [smartobject]; each test reads a
    different field, so a layer can be in both lists, one, or neither.
    A layer named "Front Lighting Adjust" is a key layer whatever its
    kind, and a smart object exactly when its kind says so.  The
    lowercasing is the interpreter's [str.lower], of which only its
    effect on ASCII text is used, and only for the named example. *)
Theorem inventory_classification (file_path file_name : string) (psd : Document) :
  keyLayers (inventory_entry str_lower file_path file_name psd) =
    List.filter (is_key_layer str_lower) (document_visits psd) ∧
  smartObjects (inventory_entry str_lower file_path file_name psd) =
    List.filter is_smart_object (document_visits psd) ∧
  info_name <$> document_visits psd = layer_name <$> iter_layers (layers psd) ∧
  info_kind <$> document_visits psd = layer_kind <$> iter_layers (layers psd) ∧
  (∀ info, info ∈ document_visits psd →
     (info ∈ keyLayers (inventory_entry str_lower file_path file_name psd) ↔
      ∃ token, token ∈ KEY_TOKENS ∧
               ∃ pre post, str_lower (info_name info) = pre +:+ token +:+ post) ∧
     (info ∈ smartObjects (inventory_entry str_lower file_path file_name psd) ↔
      info_kind info = Some "smartobject")) ∧
  (∀ a parent_visible path_parts entry,
     let info := make_info parent_visible (Leaf a) (path_parts ++ [name a]) in
     walk str_lower parent_visible (Leaf a) path_parts entry =
     extend entry
       (if decide (kind a = Some "smartobject") then [info] else [])
       (if has_key_token (str_lower (name a)) then [info] else [])) ∧
  (lowers_ascii str_lower →
   has_key_token (str_lower "Front Lighting Adjust") = true).
Proof.
  destruct (inventory_entry_lists file_path file_name psd) as [Hs Hk].
  destruct (visits_cover_layers psd) as [Hn Hki].
  split; [done|]. split; [done|]. split; [done|]. split; [done|].
  split; [|split].
  - intros info Hin. rewrite Hs, Hk. split.
    + rewrite list_elem_of_In, List.filter_In, <- list_elem_of_In.
      unfold is_key_layer. rewrite has_key_token_spec. tauto.
    + rewrite list_elem_of_In, List.filter_In, <- list_elem_of_In.
      unfold is_smart_object. rewrite bool_decide_eq_true. tauto.
  - intros a pv parts entry info. cbn [walk].
    rewrite classify_extends by apply make_info_fields.
    change (make_info pv (Leaf a) (parts ++ [layer_name (Leaf a)])) with info.
    unfold is_smart_object, is_key_layer.
    destruct (make_info_fields pv (Leaf a) (parts ++ [name a])) as [Hn' Hk'].
    fold info in Hn', Hk'. rewrite Hn', Hk'.
    change (layer_kind (Leaf a)) with (kind a).
    change (layer_name (Leaf a)) with (name a).
    destruct (decide _) as [Hd|Hd];
      [rewrite bool_decide_eq_true_2 by done | rewrite bool_decide_eq_false_2 by done];
      by destruct (has_key_token _).
  - intros Hlower.
    destruct (Hlower "" "Front Lighting Adjust" "" eq_refl) as (pre & post & Hl).
    change ("" +:+ "Front Lighting Adjust" +:+ "") with "Front Lighting Adjust" in Hl.
    change (Str.lower "Front Lighting Adjust") with "front lighting adjust" in Hl.
    apply has_key_token_spec. exists "lighting". split.
    + unfold KEY_TOKENS.
      repeat (first [apply list_elem_of_here | apply list_elem_of_further]).
    + exists (pre +:+ "front "), (" adjust" +:+ post). rewrite Hl.
      change "front lighting adjust" with ("front " +:+ "lighting" +:+ " adjust").
      by rewrite !append_associative.
Qed.

End Lowering.

End InspectFacts.

(** * The theorems at concrete inputs *)

Module Checks.
Import Psd Pil Examples.

Lemma bytes_base_2x1 : Forall rgba_bytes (data base_2x1).
Proof. repeat constructor; unfold is_byte; simpl; lia. Defined.

Lemma well_sized_base_2x1 : well_sized base_2x1.
Proof. unfold well_sized, im_width, im_height. simpl. repeat split; lia. Defined.

Lemma well_sized_overlay_2x1 : well_sized overlay_2x1.
Proof. unfold well_sized, im_width, im_height. simpl. repeat split; lia. Defined.

(** A transparent overlay over a two-pixel base. *)
Lemma screen_blend_transparent_overlay_witness :
  size clear_2x1 = size base_2x1 ∧
  Forall rgba_bytes (data base_2x1) ∧
  Forall (λ p : RGBA, p.2 = 0) (data clear_2x1) ∧
  Build.screen_blend base_2x1 clear_2x1 = Ok base_2x1.
Proof.
  assert (Forall (λ p : RGBA, p.2 = 0) (data clear_2x1)) as Hclear
    by (repeat constructor).
  split; [reflexivity|]. split; [exact bytes_base_2x1|]. split; [exact Hclear|].
  exact (BlendFacts.screen_blend_transparent_overlay base_2x1 clear_2x1
           eq_refl bytes_base_2x1 Hclear).
Defined.

(** An opaque and a transparent overlay pixel. *)
Lemma screen_blend_pixels_witness :
  ∃ out,
    Build.screen_blend base_2x1 overlay_2x1 = Ok out ∧
    size out = (2, 1) ∧
    getpixel out 0 0 = Some (255, 20, 143, 255) ∧
    getpixel out 1 0 = Some (200, 100, 50, 128).
Proof.
  destruct (BlendFacts.screen_blend_pixels base_2x1 overlay_2x1
              eq_refl well_sized_base_2x1 well_sized_overlay_2x1)
    as (out & Hout & Hsize & _ & Hpx & _).
  exists out. split; [exact Hout|]. split; [exact Hsize|].
  split.
  - destruct (Hpx 0 0) as (br & bg & bb & ba & vr & vg & vb & va & Hb & Ho & ->);
      [unfold im_width; simpl; lia | unfold im_height; simpl; lia|].
    vm_compute in Hb, Ho. injection Hb as <- <- <- <-. injection Ho as <- <- <- <-.
    reflexivity.
  - destruct (Hpx 1 0) as (br & bg & bb & ba & vr & vg & vb & va & Hb & Ho & ->);
      [unfold im_width; simpl; lia | unfold im_height; simpl; lia|].
    vm_compute in Hb, Ho. injection Hb as <- <- <- <-. injection Ho as <- <- <- <-.
    reflexivity.
Defined.

(** A two-pixel composite placed at [(1, 1)] of a 4 by 4 document. *)
Lemma to_canvas_document_sized_witness :
  ∃ canvas,
    Build.to_canvas render_2x1 front_psd design_leaf = Ok canvas ∧
    size canvas = (4, 4) ∧
    getpixel canvas 1 1 = Some (10, 20, 30, 255) ∧
    getpixel canvas 0 0 = Some (0, 0, 0, 0) ∧
    getpixel canvas 3 3 = Some (0, 0, 0, 0).
Proof.
  destruct (CanvasFacts.to_canvas_document_sized render_2x1 front_psd design_leaf
              1 1 3 4 ltac:(simpl; lia) ltac:(simpl; lia) eq_refl)
    as (canvas & Hc & Hsize & _ & Hpx & _).
  exists canvas. split; [exact Hc|]. split; [exact Hsize|].
  split; [|split]; rewrite Hpx by (simpl; lia); reflexivity.
Defined.






(** A build run on the five-layer document. *)
Lemma metadata_poster_is_design_bbox_witness :
  ∃ files,
    Build.main render_2x1 "/mockups/FRONT.psb" "FRONT.psb" true front_psd []
      = (files, Ok 0) ∧
    ∃ metadata,
      last files = Some ("front-metadata.json", Script.JSON metadata) ∧
      Build.poster metadata =
        {| Build.left := 1; Build.top := 1;
           Build.rect_width := 2; Build.rect_height := 3 |}.
Proof.
  eexists. split; [vm_compute; reflexivity|].
  match goal with
  | |- ∃ metadata, last ?files = _ ∧ _ =>
      destruct (BuildFacts.metadata_poster_is_design_bbox
                  render_2x1 "/mockups/FRONT.psb" "FRONT.psb" true front_psd files 0
                  ltac:(vm_compute; reflexivity))
        as (design_layer & x1 & y1 & x2 & y2 & metadata & Hd & Hbox & Hlast & Hposter & _)
  end.
  exists metadata. split; [exact Hlast|].
  vm_compute in Hd. injection Hd as <-.
  vm_compute in Hbox. injection Hbox as <- <- <- <-.
  exact Hposter.
Defined.

(** A build run on the document without its plastic texture. *)
Lemma find_layers_resolves_or_reports_witness :
  Build.find_layers no_plastic_psd =
    Raise (RuntimeError "Could not find required layer path: Textures/Texture/Plastic") ∧
  Build.main render_2x1 "/mockups/FRONT.psb" "FRONT.psb" true no_plastic_psd [] =
    ([], Raise (RuntimeError "Could not find required layer path: Textures/Texture/Plastic")).
Proof.
  split; [vm_compute; reflexivity|].
  apply (proj2 (BuildFacts.find_layers_resolves_or_reports Build.LAYER_PATHS no_plastic_psd)).
  vm_compute; reflexivity.
Defined.

(** The inventory of a document with a "Front Lighting Adjust" layer. *)
Lemma inventory_classification_witness :
  lighting_info ∈ Inspect.document_visits lighting_psd ∧
  lighting_info ∈
    Inspect.keyLayers (Inspect.inventory_entry Str.lower "f" "n" lighting_psd) ∧
  (lighting_info ∉
     Inspect.smartObjects (Inspect.inventory_entry Str.lower "f" "n" lighting_psd)) ∧
  Inspect.has_key_token (Str.lower "Front Lighting Adjust") = true.
Proof.
  assert (lighting_info ∈ Inspect.document_visits lighting_psd) as Hin.
  { vm_compute. apply list_elem_of_further, list_elem_of_here. }
  destruct (InspectFacts.inventory_classification Str.lower "f" "n" lighting_psd)
    as (_ & _ & _ & _ & Hclass & _ & Hexample).
  destruct (Hclass lighting_info Hin) as [Hkey Hsmart].
  split; [exact Hin|]. split; [|split].
  - apply Hkey. exists "lighting". split.
    + unfold Inspect.KEY_TOKENS. apply list_elem_of_further, list_elem_of_further,
        list_elem_of_here.
    + exists "front ", " adjust". reflexivity.
  - intros Hs. apply Hsmart in Hs. discriminate Hs.
  - exact (Hexample InspectFacts.lower_lowers_ascii).
Defined.

(** Prototype runs on a document without the design layer and on one
    without the background layer. *)
Lemma missing_layer_aborts_witness :
  Prototype.main render_doc render_2x1 no_poster fill_resize first_of_blend
      "poster.jpg" background_only_psd [] =
    ([], Raise (SystemExit "Could not find FRONT smart-object design layer.")) ∧
  Prototype.main render_doc render_2x1 no_poster fill_resize first_of_blend
      "poster.jpg" design_only_psd [] =
    ([("front_full_no_design.png",
       Script.PNG (render_doc (Prototype.hide_design design_only_psd)))],
     Raise (SystemExit "Could not find background layer.")).
Proof.
  split.
  - apply (proj1 (PipelineFacts.missing_layer_aborts render_doc render_2x1 no_poster
                    fill_resize first_of_blend "poster.jpg" background_only_psd [])).
    reflexivity.
  - apply (proj2 (PipelineFacts.missing_layer_aborts render_doc render_2x1 no_poster
                    fill_resize first_of_blend "poster.jpg" design_only_psd [])).
    + eexists. reflexivity.
    + reflexivity.
Defined.

(** C1 as stated fails: with the design layer present and the background
    layer missing, the run stops with an error after a file has been
    written. *)
Lemma missing_background_leaves_a_file :
  ¬ (∀ (psd_composite : Document → Image RGBA) (layer_composite : Layer → Image RGBA)
       (load_poster_image : string → result (Image RGBA))
       (resize_LANCZOS : Image RGBA → Z * Z → Image RGBA)
       (Image_blend : Image RGB → Image RGB → Q → result (Image RGB))
       (poster_arg : string) (psd : Document),
       Prototype.find_layer psd Prototype.DESIGN_LAYER = None ∨
       Prototype.find_layer psd Prototype.BACKGROUND_LAYER = None →
       ∃ e, Prototype.main psd_composite layer_composite load_poster_image
              resize_LANCZOS Image_blend poster_arg psd [] = ([], Raise e)).
Proof.
  intros H.
  destruct (H render_doc render_2x1 no_poster fill_resize first_of_blend
              "poster.jpg" design_only_psd) as [e He].
  - right. reflexivity.
  - vm_compute in He. discriminate He.
Qed.

End Checks.

(** * More of the scripts *)

(** ** The three traversals and the path map *)

Module LocatorFacts.
Import Psd Build BuildFacts.

Lemma foldl_insert_last (l : list (string * Layer)) (m : gmap string Layer) p :
  foldl (λ m pl, <[pl.1 := pl.2]> m) m l !! p =
  match last (filter (λ pl : string * Layer, pl.1 = p) l) with
  | Some pl => Some pl.2
  | None => m !! p
  end.
Proof.
  induction l as [|[q layer] l IH] using rev_ind; [done|].
  rewrite foldl_app, filter_app. simpl.
  destruct (decide (q = p)) as [->|Hne].
  - rewrite lookup_insert_eq, filter_cons_True by done.
    rewrite filter_nil. by rewrite last_snoc.
  - rewrite lookup_insert_ne, filter_cons_False by done.
    rewrite filter_nil, app_nil_r. exact IH.
Qed.

(** X1. The path map sends a path to the last layer the traversal yields
    under that path, and to nothing when no layer is yielded under it. *)
Theorem by_path_last_wins (psd : Document) (path : string) :
  by_path_of psd !! path =
  snd <$> last (filter (λ pl : string * Layer, pl.1 = path)
                       (iter_layers (layers psd) "")).
Proof.
  unfold by_path_of. rewrite foldl_insert_last.
  by destruct (last _) as [[q layer]|].
Qed.

Lemma iter_layer_layers path layer :
  (iter_layer path layer).*2 = Prototype.iter_layer layer.
Proof.
  revert path. induction layer as [a|a cs IH] using Layer_forall_ind; intros path.
  - done.
  - cbn [iter_layer Prototype.iter_layer]. rewrite fmap_cons. cbn [snd]. f_equal.
    generalize (if decide (path = "") then layer_name (Group a cs)
                else path +:+ "/" +:+ layer_name (Group a cs)).
    intros current_path.
    induction IH as [|c cs Hc _ IHcs]; [done|].
    simpl. by rewrite fmap_app, Hc, IHcs.
Qed.

Lemma inspect_iter_layer layer :
  Inspect.iter_layer layer = Prototype.iter_layer layer.
Proof.
  induction layer as [a|a cs IH] using Layer_forall_ind; [done|].
  simpl. f_equal.
Qed.

(** X2. The three copies of [iter_layers] visit the same layers in the
    same order: the build script's traversal, paths dropped, is the
    prototype's, and so is the inventory script's. *)
Theorem traversals_agree (group : list Layer) (path : string) :
  (iter_layers group path).*2 = Prototype.iter_layers group ∧
  Inspect.iter_layers group = Prototype.iter_layers group.
Proof.
  split.
  - unfold iter_layers, Prototype.iter_layers.
    induction group as [|l ls IH]; [done|].
    simpl. by rewrite fmap_app, iter_layer_layers, IH.
  - unfold Inspect.iter_layers, Prototype.iter_layers.
    induction group as [|l ls IH]; [done|].
    simpl. by rewrite inspect_iter_layer, IH.
Qed.

Lemma resolved_keys (table : list (string * string)) (psd : Document)
    (resolved : gmap string Layer) :
  find_layers_with table psd = Ok resolved →
  ∀ alias, is_Some (resolved !! alias) ↔ alias ∈ table.*1.
Proof.
  intros Hok alias.
  destruct (first_missing (by_path_of psd) table)
    as [Hall|(pre & a & path & post & -> & Hpre & Hnone)].
  - destruct (resolve_ok (by_path_of psd) table ∅ Hall) as (resolved' & Hres & Hin & Hout).
    unfold find_layers_with in Hok. rewrite Hres in Hok. injection Hok as <-.
    split.
    + intros Hsome. destruct (decide (alias ∈ table.*1)) as [|Hn]; [done|].
      rewrite (Hout alias Hn), lookup_empty in Hsome. by destruct Hsome.
    + intros Ha. destruct (Hin alias Ha) as (? & layer & _ & _ & ->). eauto.
  - unfold find_layers_with in Hok. by rewrite resolve_fail in Hok.
Qed.

(** X3. When [find_layers] succeeds for a table, the map it returns has
    the aliases of the table as its keys and no other key. *)
Theorem find_layers_keys (table : list (string * string)) (psd : Document)
    (resolved : gmap string Layer) :
  find_layers_with table psd = Ok resolved →
  ∀ alias, is_Some (resolved !! alias) ↔ alias ∈ table.*1.
Proof. apply resolved_keys. Qed.

(** X4. After a successful [find_layers], subscripting the result with
    one of the five aliases gives a layer, and with any other key raises
    [KeyError]. *)
Theorem item_after_find_layers (psd : Document) (layers : gmap string Layer)
    (alias : string) :
  find_layers psd = Ok layers →
  (alias ∈ ["shadow"; "case"; "design"; "plastic"; "scratches"] →
   ∃ layer, item layers alias = Ok layer) ∧
  (alias ∉ ["shadow"; "case"; "design"; "plastic"; "scratches"] →
   item layers alias = Raise (KeyError alias)).
Proof.
  intros Hok.
  pose proof (resolved_keys LAYER_PATHS psd layers Hok alias) as Hkeys.
  change (LAYER_PATHS.*1) with ["shadow"; "case"; "design"; "plastic"; "scratches"]
    in Hkeys.
  unfold item. split.
  - intros Ha. apply Hkeys in Ha as [layer ->]. eauto.
  - intros Ha. destruct (layers !! alias) eqn:E; [|done].
    exfalso. apply Ha, Hkeys. eauto.
Qed.

End LocatorFacts.

(** ** Alpha scaling, screen blending and the placeholder composite *)

Module BlendMore.
Import Psd Pil PilFacts Build BlendFacts.
Local Open Scope result_scope.

(** The value [apply_alpha_scale] returns below scale 1. *)
Lemma apply_alpha_scale_below_1 (image : Image RGBA) (scale : Q) :
  Qle_bool 1 scale = false →
  apply_alpha_scale image scale =
  Ok (mkImage (size image)
        ((λ p : RGBA, (p.1, clip8 (int_scaled p.2 scale))) <$> data image)).
Proof.
  intros Hlt. unfold apply_alpha_scale. rewrite Hlt.
  unfold putalpha, point, getchannel_A. simpl.
  rewrite decide_True by done. do 2 f_equal.
  induction (data image) as [|p l IH]; [done|]. simpl. f_equal. exact IH.
Qed.

(** X5. For a scale the double arithmetic handles exactly,
    [apply_alpha_scale] returns a raster with the size, the pixel count
    and the colour bands of its argument, and from scale 1 upwards the
    argument itself. *)
Theorem apply_alpha_scale_keeps_colour (image : Image RGBA) (scale : Q) :
  exact_scale scale →
  ∃ scaled,
    apply_alpha_scale image scale = Ok scaled ∧
    size scaled = size image ∧
    length (data scaled) = length (data image) ∧
    convert_RGB scaled = convert_RGB image ∧
    (Qle_bool 1 scale = true → scaled = image).
Proof.
  intros _. destruct (Qle_bool 1 scale) eqn:Hs.
  - exists image. unfold apply_alpha_scale. rewrite Hs. by repeat split.
  - eexists. split; [by apply apply_alpha_scale_below_1|].
    split; [done|]. split; [simpl; by rewrite length_fmap|].
    split; [|done]. unfold convert_RGB. simpl. f_equal.
    rewrite <- list_fmap_compose. by apply list_fmap_ext.
Qed.

(** X6. For a scale below 1 that the double arithmetic handles exactly,
    every alpha byte [a] becomes [a * scale] rounded down when the scale
    is not negative, which is never more than [a], and becomes 0 when
    the scale is negative. *)
Theorem apply_alpha_scale_attenuates (image : Image RGBA) (scale : Q)
    (i : nat) (p : RGBA) :
  exact_scale scale →
  Qle_bool 1 scale = false →
  data image !! i = Some p → is_byte p.2 →
  ∃ scaled a',
    apply_alpha_scale image scale = Ok scaled ∧
    data scaled !! i = Some (p.1, a') ∧
    0 ≤ a' ≤ p.2 ∧
    (Qle_bool 0 scale = true → a' = (p.2 * Qnum scale) / Z.pos (Qden scale)) ∧
    (Qle_bool 0 scale = false → a' = 0).
Proof.
  intros _ Hlt Hp Hb.
  eexists _, (clip8 (int_scaled p.2 scale)).
  split; [by apply apply_alpha_scale_below_1|].
  split; [simpl; by rewrite list_lookup_fmap, Hp|].
  unfold Qle_bool in *. simpl in Hlt. apply Z.leb_gt in Hlt.
  unfold is_byte in Hb. unfold int_scaled.
  destruct scale as [num den]. simpl in *.
  destruct (decide (0 ≤ num)) as [Hn|Hn].
  - rewrite Z.quot_div_nonneg by nia.
    assert (0 ≤ p.2 * num / Z.pos den ≤ p.2) as Hq.
    { split; [apply Z.div_pos; nia|].
      apply Z.div_le_upper_bound; nia. }
    unfold clip8. repeat case_decide; lia.
  - assert (p.2 * num ÷ Z.pos den ≤ 0) as Hq.
    { rewrite <- (Z.opp_involutive (p.2 * num)), Z.quot_opp_l by lia.
      pose proof (Z.quot_pos (- (p.2 * num)) (Z.pos den) ltac:(nia) ltac:(lia)).
      lia. }
    unfold clip8. rewrite decide_True by done.
    split; [lia|]. split; [|done].
    intros Hpos. apply Z.leb_le in Hpos. lia.
Qed.

(** X7. [screen_blend] succeeds exactly when the overlay is no wider and
    no taller than the base, and then keeps the base's size and pixel
    count; otherwise it raises [ValueError]. *)
Theorem screen_blend_needs_fitting_overlay (base overlay : Image RGBA) :
  (im_width overlay ≤ im_width base ∧ im_height overlay ≤ im_height base →
   ∃ out, screen_blend base overlay = Ok out ∧
          size out = size base ∧
          length (data out) = length (data base)) ∧
  (¬ (im_width overlay ≤ im_width base ∧ im_height overlay ≤ im_height base) →
   screen_blend base overlay = Raise (ValueError "images do not match")).
Proof.
  assert (size (getchannel_A overlay) =
          size (ImageChops_screen (convert_RGB base) (convert_RGB overlay)) ↔
          im_width overlay ≤ im_width base ∧ im_height overlay ≤ im_height base)
    as Hfit.
  { unfold ImageChops_screen, chop, im_width, im_height. simpl.
    destruct (size base) as [bw bh], (size overlay) as [ow oh]. simpl.
    split; [intros [= H1 H2]; lia | intros [H1 H2]; f_equal; lia]. }
  unfold screen_blend, Image_composite, paste.
  split.
  - intros Hle. rewrite decide_True by by apply Hfit.
    cbn [rbind]. rewrite merge_split_RGBA by done.
    eexists. split; [reflexivity|]. split; [done|].
    simpl. by rewrite length_zip_with, length_imap, !length_fmap, Nat.min_id.
  - intros Hno. rewrite decide_False; [done|]. by rewrite Hfit.
Qed.

(** Pixels of [screen_blend] on well-sized rasters of one size. *)
Lemma screen_blend_getpixel (base overlay : Image RGBA) :
  size overlay = size base → well_sized base → well_sized overlay →
  ∃ out,
    screen_blend base overlay = Ok out ∧
    ∀ x y, 0 ≤ x < im_width base → 0 ≤ y < im_height base →
      ∃ br bg bb ba vr vg vb va,
        getpixel base x y = Some (br, bg, bb, ba) ∧
        getpixel overlay x y = Some (vr, vg, vb, va) ∧
        getpixel out x y =
          Some (BLEND va br (screen_op br vr),
                BLEND va bg (screen_op bg vg),
                BLEND va bb (screen_op bb vb),
                ba).
Proof.
  intros Hs Hb Ho. rewrite screen_blend_same_size by done.
  eexists. split; [reflexivity|].
  intros x y Hx Hy.
  assert (im_width overlay = im_width base) as Hw
    by (unfold im_width; by rewrite Hs).
  assert (im_height overlay = im_height base) as Hh
    by (unfold im_height; by rewrite Hs).
  destruct (getpixel_is_Some base x y Hb Hx Hy) as [[[[br bg] bb] ba] Eb].
  destruct (getpixel_is_Some overlay x y Ho) as [[[[vr vg] vb] va] Eo];
    [lia | lia |].
  exists br, bg, bb, ba, vr, vg, vb, va.
  split; [done|]. split; [done|].
  rewrite getpixel_inside by done. simpl data.
  unfold im_width at 1. simpl size.
  rewrite lookup_zip_with, list_lookup_imap, !list_lookup_fmap.
  pose proof Eb as Eb'. rewrite getpixel_inside in Eb' by done.
  unfold im_width in Eb' at 1. rewrite Eb'. simpl.
  fold (im_width base).
  destruct (column_row_of_index (im_width base) x y Hx (proj1 Hy)) as [-> ->].
  rewrite !Z.sub_0_r.
  unfold ImageChops_screen. rewrite getpixel_chop.
  2,3: unfold convert_RGB, im_width, im_height in *; simpl; rewrite Hs; lia.
  unfold convert_RGB, getchannel_A. rewrite !getpixel_fmap, Eb, Eo.
  reflexivity.
Qed.

Lemma screen_op_brightens a b :
  is_byte a → is_byte b → a ≤ screen_op a b ≤ 255.
Proof.
  intros Ha Hb. destruct (screen_op_bytes a b Ha Hb) as [-> _].
  unfold is_byte in *.
  assert (0 ≤ (255 - a) * (255 - b) / 255 ≤ 255 - a) as Hq.
  { split; [apply Z.div_pos; nia|]. apply Z.div_le_upper_bound; nia. }
  lia.
Qed.

Lemma BLEND_between m a s :
  is_byte m → is_byte a → is_byte s → a ≤ s → a ≤ BLEND m a s ≤ s.
Proof.
  intros Hm Ha Hs Has. rewrite BLEND_round by done. unfold is_byte in *.
  split.
  - apply Z.div_le_lower_bound; nia.
  - apply Z.lt_succ_r, Z.div_lt_upper_bound; nia.
Qed.

(** X8. Screen blending never darkens: on valid rasters of one size every
    colour band of every output pixel lies between the base's value and
    255, and the alpha band is the base's. *)
Theorem screen_blend_never_darkens (base overlay : Image RGBA) (x y : Z) :
  size overlay = size base → valid_rgba base → valid_rgba overlay →
  0 ≤ x < im_width base → 0 ≤ y < im_height base →
  ∃ out br bg bb ba r g b,
    screen_blend base overlay = Ok out ∧
    getpixel base x y = Some (br, bg, bb, ba) ∧
    getpixel out x y = Some (r, g, b, ba) ∧
    br ≤ r ≤ 255 ∧ bg ≤ g ≤ 255 ∧ bb ≤ b ≤ 255.
Proof.
  intros Hs [Hwb Hbb] [Hwo Hbo] Hx Hy.
  destruct (screen_blend_getpixel base overlay Hs Hwb Hwo) as (out & Hout & Hpx).
  destruct (Hpx x y Hx Hy) as (br & bg & bb & ba & vr & vg & vb & va & Eb & Eo & Eout).
  rewrite Forall_forall in Hbb, Hbo.
  destruct (Hbb _ (getpixel_elem_of _ _ _ _ Eb)) as (Hr & Hg & Hb' & Ha).
  destruct (Hbo _ (getpixel_elem_of _ _ _ _ Eo)) as (Hvr & Hvg & Hvb & Hva).
  simpl in *.
  exists out, br, bg, bb, ba.
  exists (BLEND va br (screen_op br vr)), (BLEND va bg (screen_op bg vg)),
         (BLEND va bb (screen_op bb vb)).
  split; [done|]. split; [done|]. split; [exact Eout|].
  pose proof (screen_op_brightens br vr Hr Hvr).
  pose proof (screen_op_brightens bg vg Hg Hvg).
  pose proof (screen_op_brightens bb vb Hb' Hvb).
  assert (∀ a v, is_byte a → is_byte v → a ≤ screen_op a v ≤ 255 →
            a ≤ BLEND va a (screen_op a v) ≤ 255) as Hband.
  { intros a v Hab Hvb' Hsc.
    pose proof (BLEND_between va a (screen_op a v) Hva Hab
                  (proj2 (screen_op_bytes a v Hab Hvb')) (proj1 Hsc)). lia. }
  repeat split; by apply Hband.
Qed.

(** X9. Where the overlay is opaque the output colour is the pure screen
    [255 - (255-a)(255-b)/255] of base and overlay. *)
Theorem screen_blend_opaque_overlay (base overlay : Image RGBA) (x y : Z) :
  size overlay = size base → valid_rgba base → valid_rgba overlay →
  0 ≤ x < im_width base → 0 ≤ y < im_height base →
  ∃ out br bg bb ba vr vg vb va,
    screen_blend base overlay = Ok out ∧
    getpixel base x y = Some (br, bg, bb, ba) ∧
    getpixel overlay x y = Some (vr, vg, vb, va) ∧
    (va = 255 →
     getpixel out x y =
       Some (255 - ((255 - br) * (255 - vr)) / 255,
             255 - ((255 - bg) * (255 - vg)) / 255,
             255 - ((255 - bb) * (255 - vb)) / 255,
             ba)).
Proof.
  intros Hs [Hwb Hbb] [Hwo Hbo] Hx Hy.
  destruct (screen_blend_getpixel base overlay Hs Hwb Hwo) as (out & Hout & Hpx).
  destruct (Hpx x y Hx Hy) as (br & bg & bb & ba & vr & vg & vb & va & Eb & Eo & Eout).
  rewrite Forall_forall in Hbb, Hbo.
  destruct (Hbb _ (getpixel_elem_of _ _ _ _ Eb)) as (Hr & Hg & Hb' & Ha).
  destruct (Hbo _ (getpixel_elem_of _ _ _ _ Eo)) as (Hvr & Hvg & Hvb & Hva).
  simpl in *.
  exists out, br, bg, bb, ba, vr, vg, vb, va.
  split; [done|]. split; [done|]. split; [done|].
  intros ->. rewrite Eout.
  destruct (screen_op_bytes br vr Hr Hvr) as [E1 B1].
  destruct (screen_op_bytes bg vg Hg Hvg) as [E2 B2].
  destruct (screen_op_bytes bb vb Hb' Hvb) as [E3 B3].
  rewrite !BLEND_mask_255 by done. by rewrite E1, E2, E3.
Qed.

End BlendMore.

(** ** The placeholder composite and the outcomes of the build run *)

Module ComposeFacts.
Import Psd Pil PilFacts Build BlendFacts BuildFacts RunFacts.
Local Open Scope result_scope.

Lemma u8_is_byte v : is_byte (u8 v).
Proof.
  unfold is_byte, u8. pose proof (Z.mod_pos_bound v 256 ltac:(lia)). lia.
Qed.

Lemma alpha_composite_px_bytes d s :
  rgba_bytes d → rgba_bytes (alpha_composite_px d s).
Proof.
  destruct d as [[[dr dg] db] da], s as [[[sr sg] sb] sa].
  unfold alpha_composite_px. case_decide; [done|].
  intros _. repeat split; apply u8_is_byte.
Qed.

Lemma alpha_composite_valid self im dest :
  valid_rgba self → valid_rgba (alpha_composite self im dest).
Proof.
  intros [(Hw & Hh & Hlen) Hbytes]. split.
  - unfold well_sized, alpha_composite, im_width, im_height in *. simpl.
    by rewrite length_imap.
  - apply Forall_lookup. intros i p. unfold alpha_composite. simpl.
    rewrite list_lookup_imap. intros Hp.
    destruct (data self !! i) as [d|] eqn:Ed; [|done].
    injection Hp as <-.
    assert (rgba_bytes d) as Hd by (eapply Forall_lookup in Hbytes; eauto).
    destruct (getpixel im _ _); [by apply alpha_composite_px_bytes|done].
Qed.

Lemma alpha_composite_size self im dest :
  size (alpha_composite self im dest) = size self.
Proof. done. Qed.

Lemma screen_blend_valid base overlay :
  size overlay = size base → valid_rgba base →
  ∃ out, screen_blend base overlay = Ok out ∧ size out = size base ∧ valid_rgba out.
Proof.
  intros Hs [(Hw & Hh & Hlen) Hbytes].
  rewrite screen_blend_same_size by done.
  eexists. split; [reflexivity|]. split; [done|]. split.
  - unfold well_sized, im_width, im_height in *. simpl.
    by rewrite length_zip_with, length_imap, !length_fmap, Nat.min_id.
  - apply Forall_lookup. intros i p. simpl.
    rewrite lookup_zip_with, list_lookup_imap, !list_lookup_fmap. intros Hp.
    destruct (data base !! i) as [[[[r g] b] a]|] eqn:Ed; [|done].
    simpl in Hp. injection Hp as <-.
    assert (rgba_bytes (r, g, b, a)) as (Hr & Hg & Hb & Ha)
      by (eapply Forall_lookup in Hbytes; eauto).
    simpl in *.
    destruct (getpixel (ImageChops_screen _ _) _ _) as [[[sr sg] sb]|];
      [|by unfold rgba_bytes].
    destruct (getpixel (getchannel_A overlay) _ _) as [m|];
      [|by unfold rgba_bytes].
    unfold rgba_bytes. simpl. repeat split; try apply u8_is_byte; apply Ha.
Qed.

(** X10. With a plastic raster of the case raster's size the placeholder
    composite is produced, has the case raster's size, holds exactly
    width times height pixels and only byte channels, whatever the sizes
    and pixel values of the shadow, design and scratches rasters are. *)
Theorem compose_placeholder_cover_valid
    (shadow case design plastic scratches : Image RGBA) :
  0 ≤ im_width case → 0 ≤ im_height case → size plastic = size case →
  ∃ cover,
    compose_placeholder_cover shadow case design plastic scratches = Ok cover ∧
    size cover = size case ∧
    valid_rgba cover.
Proof.
  intros Hw Hh Hp. unfold compose_placeholder_cover, Image_new.
  rewrite decide_True by done. cbn [rbind].
  destruct (apply_alpha_scale_half shadow) as (sh & -> & _). cbn [rbind].
  set (c0 := mkImage (size case)
               (replicate (Z.to_nat ((size case).1 * (size case).2))
                  ((0, 0, 0, 0) : RGBA))).
  assert (valid_rgba c0) as Hv0.
  { split.
    - unfold well_sized, c0, im_width, im_height in *. simpl.
      by rewrite length_replicate.
    - apply Forall_replicate. repeat split; unfold is_byte; simpl; lia. }
  set (c3 := alpha_composite (alpha_composite (alpha_composite c0 sh (0, 0))
                                 case (0, 0)) design (0, 0)).
  assert (valid_rgba c3) as Hv3 by (by do 3 apply alpha_composite_valid).
  destruct (screen_blend_valid c3 plastic) as (c4 & -> & Hs4 & Hv4); [done|done|].
  cbn [rbind].
  destruct (apply_alpha_scale_half scratches) as (sc & -> & _). cbn [rbind].
  eexists. split; [reflexivity|].
  split; [by rewrite alpha_composite_size|].
  by apply alpha_composite_valid.
Qed.


End ComposeFacts.

(** ** The inventory: what an entry keeps, boxes, and letter case *)

Module InventoryMore.
Import Psd Inspect InspectFacts Paths.

Lemma inventory_entry_extend str_lower file_path file_name psd :
  inventory_entry str_lower file_path file_name psd =
  extend (mkEntry file_path file_name (width psd) (height psd) [] [])
    (List.filter is_smart_object (document_visits psd))
    (List.filter (is_key_layer str_lower) (document_visits psd)).
Proof.
  unfold inventory_entry, document_visits.
  generalize (mkEntry file_path file_name (width psd) (height psd) [] []).
  induction (layers psd) as [|l ls IH]; intros e; simpl.
  - by rewrite extend_nil.
  - by rewrite IH, walk_extends, extend_extend, !List.filter_app.
Qed.

(** X12. [collect_inventory] returns one entry per document, in the order
    of the files, and walking the layers never changes the file path,
    the file name or the document size an entry was created with. *)
Theorem collect_inventory_entries (str_lower : string → string)
    (files : list (string * string * Document)) :
  length (collect_inventory str_lower files) = length files ∧
  ∀ i file_path file_name psd,
    files !! i = Some (file_path, file_name, psd) →
    ∃ entry,
      collect_inventory str_lower files !! i = Some entry ∧
      file entry = file_path ∧
      entry_name entry = file_name ∧
      entry_width entry = width psd ∧
      entry_height entry = height psd ∧
      smartObjects entry = List.filter is_smart_object (document_visits psd) ∧
      keyLayers entry = List.filter (is_key_layer str_lower) (document_visits psd).
Proof.
  unfold collect_inventory. split; [by rewrite length_fmap|].
  intros i file_path file_name psd Hi.
  exists (inventory_entry str_lower file_path file_name psd).
  split; [by rewrite list_lookup_fmap, Hi|].
  by rewrite inventory_entry_extend.
Qed.

(** X13. The boxes recorded for the visited layers are the layers' boxes
    in traversal order, each as origin and size: [x = x1], [y = y1],
    [width = x2 - x1], [height = y2 - y1]. *)
Theorem inventory_boxes (psd : Document) :
  info_bbox <$> document_visits psd =
  (λ layer, box_of (layer_bbox layer)) <$> iter_layers (layers psd).
Proof.
  assert (∀ l pv parts,
    info_bbox <$> visits pv l parts =
    (λ layer, box_of (layer_bbox layer)) <$> iter_layer l) as Hl.
  { assert (∀ pv l path, info_bbox (make_info pv l path) = box_of (layer_bbox l))
      as Hinfo.
    { intros pv l path. unfold make_info, box_of.
      by destruct (layer_bbox l) as [[[? ?] ?] ?]. }
    induction l as [a|a cs IH] using Layer_forall_ind; intros pv parts.
    - cbn [visits iter_layer]. by rewrite !fmap_cons, !fmap_nil, Hinfo.
    - cbn [visits iter_layer]. rewrite !fmap_cons, Hinfo. f_equal.
      generalize (info_visible (make_info pv (Group a cs)
                                  (parts ++ [layer_name (Group a cs)]))).
      generalize (parts ++ [layer_name (Group a cs)]).
      intros path v.
      induction IH as [|c cs Hc _ IHcs]; [done|].
      simpl. by rewrite !fmap_app, Hc, IHcs. }
  unfold document_visits, iter_layers.
  induction (layers psd) as [|l ls IH]; [done|].
  simpl. by rewrite !fmap_app, Hl, IH.
Qed.

Lemma is_ascii_lower s : Str.is_ascii (Str.lower s) = Str.is_ascii s.
Proof.
  induction s as [|c s IH]; [done|].
  cbn [Str.lower Str.is_ascii]. rewrite IH. f_equal.
  unfold Str.ascii_lower.
  destruct ((65 <=? nat_of_ascii c)%nat && (nat_of_ascii c <=? 90)%nat) eqn:E; [|done].
  apply andb_true_iff in E as [E1 E2].
  apply Nat.leb_le in E1, E2.
  rewrite nat_ascii_embedding by lia.
  assert ((nat_of_ascii c + 32 <? 128)%nat = true) as -> by (apply Nat.ltb_lt; lia).
  symmetry. apply Nat.ltb_lt. lia.
Qed.

Lemma key_tokens_ascii token : token ∈ KEY_TOKENS → Str.is_ascii token = true.
Proof.
  unfold KEY_TOKENS. rewrite !elem_of_cons, elem_of_nil.
  intros H. repeat (destruct H as [->|H]; [reflexivity|]). done.
Qed.

(** X14. The keyword test ignores ASCII letter case: a name that contains
    a keyword written in any mix of upper and lower case is a key layer,
    given that [str.lower] lowers a stretch of ASCII text as ASCII. *)
Theorem key_layer_any_case (str_lower : string → string)
    (token pre mid post : string) (info : Info) :
  lowers_ascii str_lower →
  token ∈ KEY_TOKENS → Str.lower mid = token →
  info_name info = pre +:+ mid +:+ post →
  is_key_layer str_lower info = true.
Proof.
  intros Hlower Htoken Hmid Hname. unfold is_key_layer.
  assert (Str.is_ascii mid = true) as Hascii.
  { rewrite <- is_ascii_lower, Hmid. by apply key_tokens_ascii. }
  destruct (Hlower pre mid post Hascii) as (pre' & post' & Hl).
  apply has_key_token_spec. exists token. split; [done|].
  exists pre', post'. by rewrite Hname, Hl, Hmid.
Qed.

End InventoryMore.

(** ** The prototype: hiding, the order of its files, and the poster *)

Module PrototypeMore.
Import Psd Pil Prototype PipelineFacts RunFacts.

Lemma hide_attrs_fields a :
  name (hide_attrs a) = name a ∧ kind (hide_attrs a) = kind a ∧
  bbox (hide_attrs a) = bbox a ∧
  visible (hide_attrs a) =
    (if Str.contains (name a) "Your Design Here" then false else visible a).
Proof. unfold hide_attrs. by destruct (Str.contains _ _). Qed.

Lemma hide_attrs_idem a : hide_attrs (hide_attrs a) = hide_attrs a.
Proof.
  unfold hide_attrs. destruct (Str.contains (name a) _) eqn:E; simpl; by rewrite E.
Qed.

(** What the loop keeps and what it changes on one layer. *)
Lemma hide_layer_fields shown l :
  layer_name (hide_layer shown l) = layer_name l ∧
  layer_kind (hide_layer shown l) = layer_kind l ∧
  is_group (hide_layer shown l) = is_group l ∧
  layer_visible (hide_layer shown l) =
    (if Str.contains (layer_name l) "Your Design Here"
     then false else layer_visible l) ∧
  (is_group l = false → layer_bbox (hide_layer shown l) = layer_bbox l).
Proof.
  destruct l as [a|a cs];
    unfold layer_name, layer_kind, layer_visible, layer_bbox; simpl;
    destruct (hide_attrs_fields a) as (Hn & Hk & Hb & Hv);
    by repeat split.
Qed.

Lemma filter_none {A} (l : list A) : List.filter (λ _, false) l = [].
Proof. by induction l. Qed.



Lemma hide_layer_idem l : ∀ shown,
  hide_layer shown (hide_layer shown l) = hide_layer shown l.
Proof.
  induction l as [a|a cs IH] using Layer_forall_ind; intros shown.
  - simpl. by rewrite hide_attrs_idem.
  - cbn [hide_layer].
    set (a' := hide_attrs a).
    set (shown' := visible a' && shown).
    set (children' := map (hide_layer shown') cs).
    set (g := {| name := name a'; kind := kind a';
                 bbox := extract_bbox shown' children'; visible := visible a' |}).
    assert (name (hide_attrs g) = name a' ∧ kind (hide_attrs g) = kind a' ∧
            visible (hide_attrs g) = visible a') as (Hn & Hk & Hv).
    { destruct (hide_attrs_fields g) as (Hn & Hk & _ & Hv).
      rewrite Hn, Hk, Hv. simpl. split; [done|]. split; [done|].
      destruct (hide_attrs_fields a) as (Hna & _ & _ & Hva).
      fold a' in Hna, Hva. rewrite Hna, Hva.
      by destruct (Str.contains (name a) _). }
    rewrite Hn, Hk, Hv. fold shown'.
    assert (map (hide_layer shown') children' = children') as ->; [|done].
    unfold children'. clear g Hn Hk Hv children'.
    induction IH as [|c cs Hc _ IHcs]; [done|].
    simpl. by rewrite Hc, IHcs.
Qed.

(** X15. The hiding loop keeps the layers in their order, with their
    names, kinds and group structure, and keeps the box of every layer
    that is not a group; it clears [visible] on every layer whose name
    contains the marker and leaves the flag of every other layer alone;
    running it twice gives what running it once gives. *)
Theorem hide_design_effect (psd : Document) :
  Forall2 hidden_of (iter_layers (layers (hide_design psd)))
                    (iter_layers (layers psd)) ∧
  (∀ l' l, hidden_of l' l →
     layer_name l' = layer_name l ∧
     layer_kind l' = layer_kind l ∧
     is_group l' = is_group l ∧
     layer_visible l' =
       (if Str.contains (layer_name l) "Your Design Here"
        then false else layer_visible l) ∧
     (is_group l = false → layer_bbox l' = layer_bbox l)) ∧
  width (hide_design psd) = width psd ∧
  height (hide_design psd) = height psd ∧
  hide_design (hide_design psd) = hide_design psd.
Proof.
  split; [apply iter_layers_hide|]. split; [|split; [done|split; [done|]]].
  - intros l' l [shown ->]. apply hide_layer_fields.
  - unfold hide_design. simpl. f_equal.
    induction (layers psd) as [|l ls IH]; [done|].
    simpl. by rewrite hide_layer_idem, IH.
Qed.


Section Pipeline.
Variable psd_composite : Document → Image RGBA.
Variable layer_composite : Layer → Image RGBA.
Variable load_poster_image : string → result (Image RGBA).
Variable resample_LANCZOS : Image RGBA → Z * Z → Image RGBA.
Variable Image_blend : Image RGB → Image RGB → Q → result (Image RGB).

(** [paste_cover] returns a raster of the canvas's size or raises. *)
Lemma paste_cover_outcome base cover bbox :
  (∃ out, paste_cover resample_LANCZOS base cover bbox = Ok out ∧
          size out = size base) ∨
  (∃ e, paste_cover resample_LANCZOS base cover bbox = Raise e).
Proof.
  destruct bbox as [[[x1 y1] x2] y2]. unfold paste_cover.
  destruct (resize _ _ _) as [resized|e]; [|eauto].
  left. unfold paste. rewrite decide_True by done. eauto.
Qed.

Lemma paste_cover_positive base cover x1 y1 x2 y2 :
  x1 < x2 → y1 < y2 →
  ∃ out, paste_cover resample_LANCZOS base cover (x1, y1, x2, y2) = Ok out ∧
         size out = size base.
Proof.
  intros Hx Hy. unfold paste_cover, resize.
  destruct (decide (size cover = _)).
  - unfold paste. rewrite decide_True by done. eauto.
  - rewrite decide_False by (simpl; lia).
    unfold paste. rewrite decide_True by done. eauto.
Qed.

(** X17. Whatever the document, the poster and the library calls do, the
    prototype writes its files in one fixed order: the files written by a
    run are an initial part of the four file names, and all four when the
    run returns. *)
Theorem prototype_files_in_order (poster_arg : string) (psd : Document)
    (fs : Script.Files unit) :
  ∃ files r,
    main psd_composite layer_composite load_poster_image resample_LANCZOS Image_blend
         poster_arg psd fs = (fs ++ files, r) ∧
    Script.names files `prefix_of` Outputs.prototype_files ∧
    (∀ u, r = Ok u → Script.names files = Outputs.prototype_files).
Proof.
  unfold main, Script.bind, Script.raise, Script.ret, Script.lift, Script.write.
  destruct (find_layer psd DESIGN_LAYER) as [design|].
  2:{ exists [], (Raise (SystemExit "Could not find FRONT smart-object design layer.")).
      rewrite app_nil_r. split; [done|]. split; [apply prefix_nil|done]. }
  destruct (find_layer (hide_design psd) BACKGROUND_LAYER) as [bg|].
  2:{ eexists [_], _. split; [reflexivity|]. split; [by eexists|done]. }
  destruct (load_poster_image poster_arg) as [poster|e].
  2:{ eexists [_], _. split; [reflexivity|]. split; [by eexists|done]. }
  destruct (Image_new _ _) as [canvas|e].
  2:{ eexists [_], _. split; [reflexivity|]. split; [by eexists|done]. }
  destruct (paste_cover resample_LANCZOS canvas poster _) as [pasted|e].
  2:{ eexists [_], _. split; [reflexivity|]. split; [by eexists|done]. }
  destruct (Image_blend _ _ (82 # 100)) as [multiply|e].
  2:{ eexists [_; _], _. rewrite <- !app_assoc.
      split; [reflexivity|]. split; [by eexists|done]. }
  destruct (Image_blend _ _ (38 # 100)) as [screen|e].
  2:{ eexists [_; _; _], _. rewrite <- !app_assoc.
      split; [reflexivity|]. split; [by eexists|done]. }
  eexists [_; _; _; _], _. rewrite <- !app_assoc.
  split; [reflexivity|]. split; [by exists []|done].
Qed.

(** X18. When both layers are found and loading the poster fails, the
    run ends with the loader's exception after [front_full_no_design.png],
    and only that file, has been written. *)
Theorem poster_failure_after_first_file (poster_arg : string) (psd : Document)
    (fs : Script.Files unit) (e : exception) :
  is_Some (find_layer psd DESIGN_LAYER) →
  is_Some (find_layer psd BACKGROUND_LAYER) →
  load_poster_image poster_arg = Raise e →
  main psd_composite layer_composite load_poster_image resample_LANCZOS Image_blend
       poster_arg psd fs =
    (fs ++ [("front_full_no_design.png",
             Script.PNG (psd_composite (hide_design psd)))],
     Raise e).
Proof.
  intros [design Hd] [bg Hb] He.
  destruct (find_layer_hide_Some psd _ _ Hb) as [shown Hb'].
  unfold main, Script.bind, Script.raise, Script.ret, Script.lift, Script.write.
  by rewrite Hd, Hb', He.
Qed.

Lemma chop_fits `{Bands P} op (im1 im2 : Image P) :
  im_width im1 ≤ im_width im2 → im_height im1 ≤ im_height im2 →
  size (chop op im1 im2) = size im1.
Proof.
  unfold chop, im_width, im_height. simpl. intros Hw Hh.
  destruct (size im1) as [w1 h1], (size im2) as [w2 h2]. simpl in *.
  f_equal; lia.
Qed.

(** X19. The run returns, having written the four files, when both
    layers are found, the poster loads, the flattened document has a
    non-negative size, the box read from the hidden design layer has a
    positive width and height, the background raster is no wider and no
    taller than the flattened document, and [Image.blend] returns on
    rasters of one size. *)
Theorem prototype_run_succeeds (poster_arg : string) (psd : Document)
    (fs : Script.Files unit) (poster : Image RGBA) (design : Layer)
    (x1 y1 x2 y2 : Z) :
  find_layer psd DESIGN_LAYER = Some design →
  is_Some (find_layer psd BACKGROUND_LAYER) →
  load_poster_image poster_arg = Ok poster →
  0 ≤ im_width (psd_composite (hide_design psd)) →
  0 ≤ im_height (psd_composite (hide_design psd)) →
  layer_bbox (as_hidden design) = (x1, y1, x2, y2) → x1 < x2 → y1 < y2 →
  (∀ bg, find_layer (hide_design psd) BACKGROUND_LAYER = Some bg →
     im_width (layer_composite bg) ≤ im_width (psd_composite (hide_design psd)) ∧
     im_height (layer_composite bg) ≤ im_height (psd_composite (hide_design psd))) →
  (∀ a b q, size a = size b → ∃ blended, Image_blend a b q = Ok blended) →
  ∃ files,
    main psd_composite layer_composite load_poster_image resample_LANCZOS Image_blend
         poster_arg psd fs = (fs ++ files, Ok tt) ∧
    Script.names files = Outputs.prototype_files ∧
    head files = Some ("front_full_no_design.png",
                       Script.PNG (psd_composite (hide_design psd))).
Proof.
  intros Hd [bg0 Hb] Hp Hw Hh Hbox Hx Hy Hfit Hblend.
  destruct (find_layer_hide_Some psd _ _ Hb) as [shown Hb'].
  destruct (Hfit _ Hb') as [Hfw Hfh].
  unfold main, Script.bind, Script.raise, Script.ret, Script.lift, Script.write.
  rewrite Hd, Hb', Hp. simpl.
  unfold Image_new. rewrite decide_True by done. rewrite Hbox.
  match goal with
  | |- context [paste_cover resample_LANCZOS ?c ?p (x1, y1, x2, y2)] =>
      destruct (paste_cover_positive c p x1 y1 x2 y2 Hx Hy) as (pasted & -> & _)
  end.
  match goal with
  | |- context [Image_blend ?a ?b (82 # 100)] =>
      destruct (Hblend a b (82 # 100)) as (multiply & ->)
  end.
  { unfold ImageChops_multiply. symmetry. by apply chop_fits. }
  match goal with
  | |- context [Image_blend ?a ?b (38 # 100)] =>
      destruct (Hblend a b (38 # 100)) as (screen & ->)
  end.
  { unfold ImageChops_screen. symmetry. by apply chop_fits. }
  rewrite <- !app_assoc. eexists. split; [reflexivity|]. by split.
Qed.


End Pipeline.

(** X20. A poster argument is fetched over the network exactly when it
    begins with [http://] or [https://], in lower case; every other
    argument, whatever it looks like, is opened as a local file. *)
Theorem load_poster_image_dispatch
    (fetch_url open_file : string → result (Image RGBA)) (value : string) :
  ((∃ rest, value = "http://" +:+ rest ∨ value = "https://" +:+ rest) →
   Poster.load_poster_image fetch_url open_file value = fetch_url value) ∧
  (¬ (∃ rest, value = "http://" +:+ rest ∨ value = "https://" +:+ rest) →
   Poster.load_poster_image fetch_url open_file value = open_file value).
Proof.
  unfold Poster.load_poster_image.
  destruct (Str.starts_with value "http://") eqn:E1;
    destruct (Str.starts_with value "https://") eqn:E2; simpl.
  1-3: split; [done|]; intros Hno; exfalso; apply Hno.
  - apply InspectFacts.starts_with_spec in E1 as [rest ->]. eauto.
  - apply InspectFacts.starts_with_spec in E1 as [rest ->]. eauto.
  - apply InspectFacts.starts_with_spec in E2 as [rest ->]. eauto.
  - split; [|done]. intros [rest [Hr|Hr]].
    + assert (Str.starts_with value "http://" = true) as Ht
        by (apply InspectFacts.starts_with_spec; eauto).
      congruence.
    + assert (Str.starts_with value "https://" = true) as Ht
        by (apply InspectFacts.starts_with_spec; eauto).
      congruence.
Qed.

End PrototypeMore.

(** ** How the build script names a layer *)

Module PathFacts.
Import Psd Build Paths.

Lemma append_assoc (s t u : string) : (s +:+ t) +:+ u = s +:+ (t +:+ u).
Proof.
  induction s as [|c s IH]; [done|].
  change (String c ((s +:+ t) +:+ u) = String c (s +:+ (t +:+ u))).
  by rewrite IH.
Qed.

Lemma join_snoc sep (parts : list string) n :
  parts ≠ [] → Str.join sep (parts ++ [n]) = Str.join sep parts +:+ sep +:+ n.
Proof.
  induction parts as [|p parts IH]; [done|]. intros _.
  destruct parts as [|q parts]; [done|].
  change (Str.join sep ((p :: q :: parts) ++ [n]))
    with (p +:+ sep +:+ Str.join sep ((q :: parts) ++ [n])).
  rewrite IH by done.
  change (Str.join sep (p :: q :: parts))
    with (p +:+ sep +:+ Str.join sep (q :: parts)).
  by rewrite !append_assoc.
Qed.

Lemma join_nonempty sep (parts : list string) :
  parts ≠ [] → Forall (λ s, s ≠ "") parts → Str.join sep parts ≠ "".
Proof.
  destruct parts as [|p parts]; [done|]. intros _ Hall.
  inversion Hall as [|? ? Hp _]; subst.
  destruct p as [|c p]; [done|]. by destruct parts.
Qed.

Lemma groups_named_group a cs :
  groups_named (Group a cs) ↔ name a ≠ "" ∧ Forall groups_named cs.
Proof.
  simpl. split; intros [Ha Hcs]; (split; [done|]).
  - induction cs as [|c cs IH]; [done|]. destruct Hcs. constructor; auto.
  - induction Hcs as [|c cs Hc _ IH]; [done|]. by split.
Qed.

Lemma iter_layer_named (layer : Layer) : ∀ parts : list string,
  groups_named layer → Forall (λ s, s ≠ "") parts →
  iter_layer (Str.join "/" parts) layer =
  (λ pl : list string * Layer, (Str.join "/" pl.1, pl.2)) <$> named parts layer.
Proof.
  induction layer as [a|a cs IH] using Layer_forall_ind; intros parts Hg Hparts.
  - cbn [iter_layer named]. rewrite fmap_cons, fmap_nil. cbn [fst snd].
    do 2 f_equal. destruct parts as [|p parts]; [done|].
    rewrite decide_False by (by apply join_nonempty).
    by rewrite join_snoc.
  - apply groups_named_group in Hg as [Ha Hcs].
    cbn [iter_layer named]. rewrite fmap_cons. cbn [fst snd].
    assert ((if decide (Str.join "/" parts = "") then layer_name (Group a cs)
             else Str.join "/" parts +:+ "/" +:+ layer_name (Group a cs)) =
            Str.join "/" (parts ++ [layer_name (Group a cs)])) as ->.
    { destruct parts as [|p parts]; [done|].
      rewrite decide_False by (by apply join_nonempty).
      by rewrite join_snoc. }
    f_equal.
    assert (Forall (λ s, s ≠ "") (parts ++ [layer_name (Group a cs)])) as Hown.
    { apply Forall_app. split; [done|]. by constructor. }
    revert Hown. generalize (parts ++ [layer_name (Group a cs)]). intros own Hown.
    induction IH as [|c cs' Hc _ IHcs]; [done|].
    inversion Hcs; subst. simpl.
    rewrite fmap_app, Hc by done. f_equal. by apply IHcs.
Qed.

(** X21. In a document with no empty-named group, the path the build
    script gives a layer is the names of its ancestors and its own name
    joined by "/", outermost first; these are the keys of the path map. *)
Theorem build_paths_are_joined_names (psd : Document) :
  Forall groups_named (layers psd) →
  iter_layers (layers psd) "" =
  (λ pl : list string * Layer, (Str.join "/" pl.1, pl.2))
    <$> flat_map (named []) (layers psd).
Proof.
  intros Hall. unfold iter_layers.
  induction Hall as [|l ls Hl _ IH]; [done|].
  simpl. rewrite fmap_app. f_equal; [|exact IH].
  by apply (iter_layer_named l []).
Qed.

(** A top-level group with the empty name adds nothing to the paths of
    its children: they are yielded under the paths they would have as
    top-level layers. *)
Lemma empty_named_group_is_transparent (a : Attrs) (children : list Layer) :
  name a = "" →
  iter_layers [Group a children] "" =
  ("", Group a children) :: iter_layers children "".
Proof.
  intros Ha. unfold iter_layers. simpl. rewrite app_nil_r.
  unfold layer_name. simpl. rewrite Ha. simpl. reflexivity.
Qed.

End PathFacts.

(** * The further theorems at concrete inputs *)

Module MoreChecks.
Import Psd Pil Examples MoreExamples.

Lemma bytes_overlay_2x1 : Forall rgba_bytes (data overlay_2x1).
Proof. repeat constructor; unfold is_byte; simpl; lia. Defined.

Lemma five_paths_present : "design" ∈ Build.LAYER_PATHS.*1.
Proof.
  unfold Build.LAYER_PATHS. simpl.
  repeat (first [apply list_elem_of_here | apply list_elem_of_further]).
Defined.

Lemma find_layers_keys_witness :
  ∃ resolved,
    Build.find_layers_with Build.LAYER_PATHS front_psd = Ok resolved ∧
    is_Some (resolved !! "design").
Proof.
  destruct (Build.find_layers_with Build.LAYER_PATHS front_psd) as [resolved|e] eqn:E.
  - exists resolved. split; [reflexivity|].
    apply (LocatorFacts.find_layers_keys Build.LAYER_PATHS front_psd resolved E "design").
    exact five_paths_present.
  - vm_compute in E. discriminate E.
Defined.

Lemma item_after_find_layers_witness :
  ∃ layers,
    Build.find_layers front_psd = Ok layers ∧
    (∃ layer, Build.item layers "plastic" = Ok layer) ∧
    Build.item layers "poster" = Raise (KeyError "poster").
Proof.
  destruct (Build.find_layers front_psd) as [layers|e] eqn:E.
  - exists layers. split; [reflexivity|].
    split.
    + apply (LocatorFacts.item_after_find_layers front_psd layers "plastic" E).
      repeat (first [apply list_elem_of_here | apply list_elem_of_further]).
    + apply (LocatorFacts.item_after_find_layers front_psd layers "poster" E).
      intros H.
      repeat (apply elem_of_cons in H as [H|H]; [discriminate H|]).
      by apply elem_of_nil in H.
  - vm_compute in E. discriminate E.
Defined.

Lemma exact_scale_one : Build.exact_scale 1%Q.
Proof. exists 0%nat. split; [lia|]. split; [reflexivity|]. simpl. lia. Defined.

Lemma exact_scale_half : Build.exact_scale (1 # 2).
Proof. exists 1%nat. split; [lia|]. split; [reflexivity|]. simpl. lia. Defined.

Lemma apply_alpha_scale_keeps_colour_witness :
  ∃ scaled,
    Build.apply_alpha_scale base_2x1 1%Q = Ok scaled ∧ scaled = base_2x1.
Proof.
  destruct (BlendMore.apply_alpha_scale_keeps_colour base_2x1 1%Q exact_scale_one)
    as (scaled & H1 & _ & _ & _ & H5).
  exists scaled. split; [exact H1|]. apply H5. reflexivity.
Defined.

Lemma apply_alpha_scale_attenuates_witness :
  ∃ scaled,
    Build.apply_alpha_scale base_2x1 (1 # 2) = Ok scaled ∧
    data scaled !! 1%nat = Some (200, 100, 50, 64).
Proof.
  destruct (BlendMore.apply_alpha_scale_attenuates base_2x1 (1 # 2) 1
              (200, 100, 50, 128) exact_scale_half eq_refl eq_refl
              ltac:(unfold is_byte; simpl; lia))
    as (scaled & a' & H1 & H2 & _ & H4 & _).
  exists scaled. split; [exact H1|].
  rewrite H2, (H4 eq_refl). reflexivity.
Defined.

Lemma screen_blend_needs_fitting_overlay_witness :
  Build.screen_blend base_2x1 wide_3x1 = Raise (ValueError "images do not match").
Proof.
  apply (proj2 (BlendMore.screen_blend_needs_fitting_overlay base_2x1 wide_3x1)).
  unfold im_width, im_height. simpl. lia.
Defined.

Lemma screen_blend_never_darkens_witness :
  ∃ out r g b,
    Build.screen_blend base_2x1 overlay_2x1 = Ok out ∧
    getpixel out 0 0 = Some (r, g, b, 255) ∧
    10 ≤ r ≤ 255 ∧ 20 ≤ g ≤ 255 ∧ 30 ≤ b ≤ 255.
Proof.
  destruct (BlendMore.screen_blend_never_darkens base_2x1 overlay_2x1 0 0 eq_refl
              (conj Checks.well_sized_base_2x1 Checks.bytes_base_2x1)
              (conj Checks.well_sized_overlay_2x1 bytes_overlay_2x1)
              ltac:(unfold im_width; simpl; lia) ltac:(unfold im_height; simpl; lia))
    as (out & br & bg & bb & ba & r & g & b & Hout & Hb & Hp & Hr & Hg & Hbb).
  vm_compute in Hb. injection Hb as <- <- <- <-.
  exists out, r, g, b. split; [exact Hout|]. split; [exact Hp|].
  exact (conj Hr (conj Hg Hbb)).
Defined.

Lemma screen_blend_opaque_overlay_witness :
  ∃ out,
    Build.screen_blend base_2x1 overlay_2x1 = Ok out ∧
    getpixel out 0 0 = Some (255, 20, 143, 255).
Proof.
  destruct (BlendMore.screen_blend_opaque_overlay base_2x1 overlay_2x1 0 0 eq_refl
              (conj Checks.well_sized_base_2x1 Checks.bytes_base_2x1)
              (conj Checks.well_sized_overlay_2x1 bytes_overlay_2x1)
              ltac:(unfold im_width; simpl; lia) ltac:(unfold im_height; simpl; lia))
    as (out & br & bg & bb & ba & vr & vg & vb & va & Hout & Hb & Ho & Hpx).
  vm_compute in Hb, Ho. injection Hb as <- <- <- <-. injection Ho as <- <- <- <-.
  exists out. split; [exact Hout|]. rewrite (Hpx eq_refl). reflexivity.
Defined.

Lemma compose_placeholder_cover_valid_witness :
  ∃ cover,
    Build.compose_placeholder_cover base_2x1 base_2x1 wide_3x1 overlay_2x1 clear_2x1
      = Ok cover ∧
    size cover = (2, 1) ∧ valid_rgba cover.
Proof.
  exact (ComposeFacts.compose_placeholder_cover_valid
           base_2x1 base_2x1 wide_3x1 overlay_2x1 clear_2x1
           ltac:(unfold im_width; simpl; lia) ltac:(unfold im_height; simpl; lia)
           eq_refl).
Defined.


Lemma collect_inventory_entries_witness :
  ∃ entry,
    Inspect.collect_inventory Str.lower
      [("/m/FRONT.psb", "FRONT.psb", lighting_psd)] !! 0%nat = Some entry ∧
    Inspect.file entry = "/m/FRONT.psb" ∧ Inspect.entry_width entry = 4.
Proof.
  destruct (proj2 (InventoryMore.collect_inventory_entries Str.lower
                     [("/m/FRONT.psb", "FRONT.psb", lighting_psd)])
              0%nat "/m/FRONT.psb" "FRONT.psb" lighting_psd eq_refl)
    as (entry & H1 & H2 & _ & H4 & _).
  exists entry. split; [exact H1|]. split; [exact H2|exact H4].
Defined.

Lemma key_layer_any_case_witness :
  Inspect.is_key_layer Str.lower upper_front_info = true.
Proof.
  apply (InventoryMore.key_layer_any_case Str.lower
           "front" "" "FRONT" " Cover" upper_front_info).
  - exact InspectFacts.lower_lowers_ascii.
  - unfold Inspect.KEY_TOKENS.
    repeat (first [apply list_elem_of_here | apply list_elem_of_further]).
  - reflexivity.
  - reflexivity.
Defined.


Lemma prototype_files_in_order_witness :
  ∃ files r,
    Prototype.main render_doc render_2x1 no_poster fill_resize first_of_blend
      "poster.jpg" design_only_psd [] = ([] ++ files, r) ∧
    Script.names files `prefix_of` Outputs.prototype_files ∧
    (∀ u, r = Ok u → Script.names files = Outputs.prototype_files).
Proof.
  exact (PrototypeMore.prototype_files_in_order render_doc render_2x1 no_poster
           fill_resize first_of_blend "poster.jpg" design_only_psd []).
Defined.

Lemma poster_failure_after_first_file_witness :
  Prototype.main render_doc render_2x1 no_poster fill_resize first_of_blend
    "poster.jpg" front_psd [] =
  ([] ++ [("front_full_no_design.png",
           Script.PNG (render_doc (Prototype.hide_design front_psd)))],
   Raise (ValueError "no poster")).
Proof.
  apply (PrototypeMore.poster_failure_after_first_file render_doc render_2x1 no_poster
           fill_resize first_of_blend "poster.jpg" front_psd []).
  - eexists. reflexivity.
  - eexists. reflexivity.
  - reflexivity.
Defined.

Lemma prototype_run_succeeds_witness :
  ∃ files,
    Prototype.main render_doc render_2x1 one_poster fill_resize first_of_blend
      "poster.jpg" front_psd [] = ([] ++ files, Ok tt) ∧
    Script.names files = Outputs.prototype_files ∧
    head files = Some ("front_full_no_design.png",
                       Script.PNG (render_doc (Prototype.hide_design front_psd))).
Proof.
  apply (PrototypeMore.prototype_run_succeeds render_doc render_2x1 one_poster
           fill_resize first_of_blend "poster.jpg" front_psd [] poster_1x1
           design_leaf 1 1 3 4).
  - reflexivity.
  - eexists. reflexivity.
  - reflexivity.
  - unfold im_width. simpl. lia.
  - unfold im_height. simpl. lia.
  - reflexivity.
  - lia.
  - lia.
  - intros bg _. unfold im_width, im_height. simpl. lia.
  - intros a b q _. exists a. reflexivity.
Defined.


Lemma load_poster_image_dispatch_witness :
  Poster.load_poster_image fetched opened "https://image.tmdb.org/t/p/w780/p.jpg"
    = fetched "https://image.tmdb.org/t/p/w780/p.jpg" ∧
  Poster.load_poster_image fetched opened "HTTP://image.tmdb.org/p.jpg"
    = opened "HTTP://image.tmdb.org/p.jpg".
Proof.
  split.
  - apply (proj1 (PrototypeMore.load_poster_image_dispatch fetched opened
                    "https://image.tmdb.org/t/p/w780/p.jpg")).
    exists "image.tmdb.org/t/p/w780/p.jpg". right. reflexivity.
  - apply (proj2 (PrototypeMore.load_poster_image_dispatch fetched opened
                    "HTTP://image.tmdb.org/p.jpg")).
    intros [rest [H|H]]; cbv in H; discriminate H.
Defined.

Lemma build_paths_are_joined_names_witness :
  Build.iter_layers (layers front_psd) "" =
  (λ pl : list string * Layer, (Str.join "/" pl.1, pl.2))
    <$> flat_map (Paths.named []) (layers front_psd).
Proof.
  apply (PathFacts.build_paths_are_joined_names front_psd).
  repeat constructor; discriminate.
Defined.

End MoreChecks.
